(** * Sistema de consultorio odontológico: service layer

    Shallow embedding of the record-keeping layer of
    [Examen_Sistema_Odontologico.py] (observer hook, patient registry,
    appointment book, treatment ledger and the appointments-by-day report),
    with the properties stated for it.

    Python objects live in a store and are named by references, so that
    identity ([in], [==] on objects without [__eq__]) and in-place mutation
    are those of the program.  A [str] is the [string] of its UTF-8 bytes.
    [lower] and [strip] are an interface, fixed on ASCII text only; the
    [\d] and [\s] of the date parser are given on ASCII. *)

From Stdlib Require Import ZArith Ascii String DecimalString.
From stdpp Require Import base tactics option list strings sorting.

Local Open Scope Z_scope.

(** ** datetime.strptime for the two formats of the program *)

Module Strptime.

(** A [datetime] without time zone; seconds and microseconds are always 0 in
    this program (no format has them) and are left out. *)
Record datetime := mk_datetime
  { year : Z; month : Z; day : Z; hour : Z; minute : Z }.

#[global] Instance datetime_eq_dec : EqDecision datetime.
Proof. solve_decision. Defined.

(** [datetime.date()]: the calendar part. *)
Definition date (dt : datetime) : Z * Z * Z := (year dt, month dt, day dt).

Definition code (c : ascii) : N := N_of_ascii c.

Definition rango (lo hi : ascii) (c : ascii) : bool :=
  ((code lo <=? code c) && (code c <=? code hi))%N.

Definition es (x : ascii) (c : ascii) : bool := (code x =? code c)%N.

(** [\d] *)
Definition digito : ascii -> bool := rango "0" "9".

(** [\s]: space, [\t\n\v\f\r] and the separators 0x1c to 0x1f. *)
Definition espacio (c : ascii) : bool :=
  ((code c =? 32) || ((9 <=? code c) && (code c <=? 13))
   || ((28 <=? code c) && (code c <=? 31)))%N.

(** One alternative of a directive is a sequence of character classes; it
    matches a prefix of the input and gives the matched text and the rest. *)
Fixpoint secuencia (clases : list (ascii -> bool)) (s : string)
  : option (string * string) :=
  match clases with
  | [] => Some ("", s)
  | k :: clases' =>
      match s with
      | String c s' =>
          if k c then
            match secuencia clases' s' with
            | Some (m, r) => Some (String c m, r)
            | None => None
            end
          else None
      | EmptyString => None
      end
  end.

(** A directive is an ordered alternation: every alternative that matches,
    in the order the regular expression engine tries them. *)
Definition directiva (alts : list (list (ascii -> bool))) (s : string)
  : list (string * string) :=
  omap (fun a => secuencia a s) alts.

(** The regular expressions [_strptime] builds for the directives. *)
Definition re_Y := [[digito; digito; digito; digito]].
Definition re_m := [[es "1"; rango "0" "2"]; [es "0"; rango "1" "9"]; [rango "1" "9"]].
Definition re_d :=
  [[es "3"; rango "0" "1"]; [rango "1" "2"; digito]; [es "0"; rango "1" "9"];
   [rango "1" "9"]; [es " "; rango "1" "9"]].
Definition re_H := [[es "2"; rango "0" "3"]; [rango "0" "1"; digito]; [digito]].
Definition re_M := [[rango "0" "5"; digito]; [digito]].

(** A literal character of the format. *)
Definition literal (x : ascii) (s : string) : list string :=
  match s with
  | String c s' => if es x c then [s'] else []
  | EmptyString => []
  end.

(** White space in the format becomes [\s+]: greedy, so the longest run is
    tried first and shorter ones on backtracking. *)
Fixpoint espacios_aux (s : string) : list string :=
  match s with
  | String c s' => if espacio c then espacios_aux s' ++ [s'] else []
  | EmptyString => []
  end.

Definition espacios (s : string) : list string := espacios_aux s.

(** [int(text)] on a run of digits, with the leading blank [%d] admits. *)
Fixpoint int_aux (acc : Z) (s : string) : Z :=
  match s with
  | String c s' =>
      if digito c then int_aux (10 * acc + Z.of_N (code c - 48)) s'
      else int_aux acc s'
  | EmptyString => acc
  end.

Definition int (s : string) : Z := int_aux 0 s.

Definition es_bisiesto (y : Z) : bool :=
  (y mod 4 =? 0) && (negb (y mod 100 =? 0) || (y mod 400 =? 0)).

Definition dias_del_mes (y m : Z) : Z :=
  if m =? 2 then (if es_bisiesto y then 29 else 28)
  else if (m =? 4) || (m =? 6) || (m =? 9) || (m =? 11) then 30
  else 31.

(** The range checks of the [date] constructor, which [_strptime] runs on
    the parsed fields: a ValueError when they fail. *)
Definition fecha_valida (y m d : Z) : bool :=
  (1 <=? y) && (y <=? 9999) && (1 <=? m) && (m <=? 12)
  && (1 <=? d) && (d <=? dias_del_mes y m).

(** First match of the regular expression of ["%Y-%m-%d"]. *)
Definition regex_fecha (s : string) : option (string * string * string * string) :=
  head
    ('(y, r1) ← directiva re_Y s;
     r2 ← literal "-" r1;
     '(m, r3) ← directiva re_m r2;
     r4 ← literal "-" r3;
     '(d, r5) ← directiva re_d r4;
     [(y, m, d, r5)]).

(** First match of the regular expression of ["%Y-%m-%d %H:%M"]. *)
Definition regex_fecha_hora (s : string)
  : option (string * string * string * string * string * string) :=
  head
    ('(y, r1) ← directiva re_Y s;
     r2 ← literal "-" r1;
     '(m, r3) ← directiva re_m r2;
     r4 ← literal "-" r3;
     '(d, r5) ← directiva re_d r4;
     r6 ← espacios r5;
     '(h, r7) ← directiva re_H r6;
     r8 ← literal ":" r7;
     '(mi, r9) ← directiva re_M r8;
     [(y, m, d, h, mi, r9)]).

(** [datetime.strptime(s, "%Y-%m-%d")]; [None] stands for ValueError (no
    match, unconverted data after the match, or a date out of range). *)
Definition strptime_fecha (s : string) : option datetime :=
  match regex_fecha s with
  | Some (y, m, d, resto) =>
      if decide (resto = "") then
        if fecha_valida (int y) (int m) (int d)
        then Some (mk_datetime (int y) (int m) (int d) 0 0)
        else None
      else None
  | None => None
  end.

(** [datetime.strptime(s, "%Y-%m-%d %H:%M")]. *)
Definition strptime_fecha_hora (s : string) : option datetime :=
  match regex_fecha_hora s with
  | Some (y, m, d, h, mi, resto) =>
      if decide (resto = "") then
        if fecha_valida (int y) (int m) (int d)
        then Some (mk_datetime (int y) (int m) (int d) (int h) (int mi))
        else None
      else None
  | None => None
  end.

(** [str(n)] for a non-negative integer. *)
Definition str_Z (n : Z) : string :=
  if n <? 0 then "-" +:+ NilZero.string_of_uint (N.to_uint (Z.to_N (- n)))
  else NilZero.string_of_uint (N.to_uint (Z.to_N n)).

(** A field of [strftime] padded to two digits ([%H], [%M]). *)
Definition dos_digitos (n : Z) : string :=
  if n <? 10 then "0" +:+ str_Z n else str_Z n.

(** [dt.strftime('%H:%M')] *)
Definition strftime_HM (dt : datetime) : string :=
  dos_digitos (hour dt) +:+ ":" +:+ dos_digitos (minute dt).

End Strptime.

Import Strptime.

(** ** Python built-ins used by the services *)

(** Objects are named by the position at which they were created in the
    store of their class; two references are the same object exactly when
    they are equal. *)
Definition ref := nat.

Definition nl : string := String (ascii_of_nat 10) "".

(** An exception that leaves the function raising it. *)
Inductive Excepcion := ValueError (mensaje : string).

(** [list.remove(x)]: drops the first occurrence, and raises ValueError
    when there is none. *)
Fixpoint list_remove (x : ref) (l : list ref) : Excepcion + list ref :=
  match l with
  | [] => inl (ValueError "list.remove(x): x not in list")
  | y :: l' =>
      if decide (y = x) then inr l'
      else match list_remove x l' with
           | inr r => inr (y :: r)
           | inl e => inl e
           end
  end.

(** [x in l] on objects compared by identity. *)
Definition py_in (x : ref) (l : list ref) : bool := bool_decide (x ∈ l).

(** [str.lower()] and [str.strip()] on ASCII text. *)
Definition lower_char (c : ascii) : ascii :=
  if rango "A" "Z" c then ascii_of_N (code c + 32) else c.

Fixpoint lower_ascii (s : string) : string :=
  match s with
  | String c s' => String (lower_char c) (lower_ascii s')
  | EmptyString => EmptyString
  end.

Fixpoint lstrip_ascii (s : string) : string :=
  match s with
  | String c s' => if espacio c then lstrip_ascii s' else s
  | EmptyString => EmptyString
  end.

Fixpoint rstrip_ascii (s : string) : string :=
  match s with
  | String c s' =>
      match rstrip_ascii s' with
      | EmptyString => if espacio c then EmptyString else String c EmptyString
      | r => String c r
      end
  | EmptyString => EmptyString
  end.

Definition strip_ascii (s : string) : string := rstrip_ascii (lstrip_ascii s).

(** A text of ASCII characters only. *)
Fixpoint es_ascii (s : string) : bool :=
  match s with
  | String c s' => (code c <? 128)%N && es_ascii s'
  | EmptyString => true
  end.

(** [str.lower()] and [str.strip()] on any text.  A [string] holds the
    UTF-8 bytes of a [str].  Outside ASCII the two methods follow the
    Unicode tables of the interpreter, which are no part of this program:
    they are the operations of this interface, of which only the behaviour
    on ASCII text is fixed. *)
Class Unicode := mk_Unicode
  { lower : string -> string;
    strip : string -> string;
    lower_de_ascii : forall s, es_ascii s = true -> lower s = lower_ascii s;
    strip_de_ascii : forall s, es_ascii s = true -> strip s = strip_ascii s }.

(** The interface with the ASCII functions on every text, with which the
    examples on ASCII text are computed. *)
#[global] Instance solo_ascii : Unicode :=
  mk_Unicode lower_ascii strip_ascii (fun _ _ => eq_refl) (fun _ _ => eq_refl).

(** A [dict] with string keys and integer values, in insertion order. *)
Definition dict := list (string * Z).

Fixpoint dict_get (d : dict) (k : string) (def : Z) : Z :=
  match d with
  | [] => def
  | (k', v) :: d' => if decide (k' = k) then v else dict_get d' k def
  end.

(** [d[k] = v]: an existing key keeps its place, a new one goes last. *)
Fixpoint dict_set (d : dict) (k : string) (v : Z) : dict :=
  match d with
  | [] => [(k, v)]
  | (k', v') :: d' =>
      if decide (k' = k) then (k', v) :: d' else (k', v') :: dict_set d' k v
  end.

(** [sorted(items, key=lambda item: item[1], reverse=True)]: the stable
    sort by decreasing value.  An item goes in front of the first one whose
    value is not larger, so items of equal value keep their order. *)
Fixpoint insertar (x : string * Z) (l : list (string * Z)) : list (string * Z) :=
  match l with
  | [] => [x]
  | y :: l' => if y.2 <=? x.2 then x :: y :: l' else y :: insertar x l'
  end.

Definition sorted_reverse (l : list (string * Z)) : list (string * Z) :=
  foldr insertar [] l.

(** [l[:n]], with Python's reading of a negative bound. *)
Definition slice_hasta {A} (n : Z) (l : list A) : list A :=
  if n <? 0 then take (Z.to_nat (Z.of_nat (length l) + n)) l
  else take (Z.to_nat n) l.

(** [messagebox.showerror(titulo, mensaje)], after which the services
    return [None]. *)
Inductive Aviso := showerror (titulo mensaje : string).

#[global] Instance Aviso_eq_dec : EqDecision Aviso.
Proof. solve_decision. Defined.

(** ** Patrón Observer *)

Module Observable.

Record t := mk { _observadores : list ref }.

Definition __init__ : t := mk [].

Definition adjuntar (self : t) (observador : ref) : t :=
  if negb (py_in observador (_observadores self))
  then mk (_observadores self ++ [observador])
  else self.

(** No handler: an exception of [list.remove] leaves [separar] too. *)
Definition separar (self : t) (observador : ref) : Excepcion + t :=
  match list_remove observador (_observadores self) with
  | inr l => inr (mk l)
  | inl e => inl e
  end.

(** The calls [observador.actualizar(mensaje)] made, in order. *)
Definition notificar (self : t) (mensaje : string) : list (ref * string) :=
  foldl (fun hechas observador => hechas ++ [(observador, mensaje)])
        [] (_observadores self).

(** The calls made on a hook during its life, from its creation. *)
Inductive Llamada := Adjuntar (o : ref) | Separar (o : ref).

(** A [separar] that raises leaves the hook as it was. *)
Definition paso (self : t) (c : Llamada) : t :=
  match c with
  | Adjuntar o => adjuntar self o
  | Separar o => match separar self o with inr self' => self' | inl _ => self end
  end.

Definition ejecutar (cs : list Llamada) : t := foldl paso __init__ cs.

End Observable.

(** ** Clases del dominio *)

Module Paciente.
Record t := mk
  { id_paciente : Z;
    nombre : string;
    telefono : string;
    direccion : string;
    fecha_nacimiento : string;
    historial_medico : string;
    tratamientos : list ref }.

Definition __init__ (id_paciente : Z)
    (nombre telefono direccion fecha_nacimiento historial_medico : string) : t :=
  mk id_paciente nombre telefono direccion fecha_nacimiento historial_medico [].

(** [if valor: self.campo = valor]: [None] and [""] are falsy. *)
Definition si_valor (valor : option string) (campo : string) : string :=
  match valor with
  | Some (String c s) => String c s
  | Some EmptyString => campo
  | None => campo
  end.

Definition actualizar_info (self : t)
    (nombre telefono direccion fecha_nacimiento historial_medico : option string) : t :=
  mk (id_paciente self)
     (si_valor nombre (Paciente.nombre self))
     (si_valor telefono (Paciente.telefono self))
     (si_valor direccion (Paciente.direccion self))
     (si_valor fecha_nacimiento (Paciente.fecha_nacimiento self))
     (si_valor historial_medico (Paciente.historial_medico self))
     (tratamientos self).

Definition agregar_tratamiento (self : t) (tratamiento : ref) : t :=
  mk (id_paciente self) (nombre self) (telefono self) (direccion self)
     (fecha_nacimiento self) (historial_medico self)
     (tratamientos self ++ [tratamiento]).

#[global] Instance inhabited : Inhabited t := populate (__init__ 0 "" "" "" "" "").
End Paciente.

Module Cita.
Record t := mk
  { id_cita : Z;
    paciente : ref;
    fecha_hora : datetime;
    motivo : string;
    estado : string }.

Definition con_estado (self : t) (e : string) : t :=
  mk (id_cita self) (paciente self) (fecha_hora self) (motivo self) e.

#[global] Instance inhabited : Inhabited t :=
  populate (mk 0 0%nat (mk_datetime 0 0 0 0 0) "" "").
End Cita.

Module Tratamiento.
Record t := mk
  { id_tratamiento : Z;
    paciente : ref;
    fecha : datetime;
    descripcion : string;
    odontologo : string }.

#[global] Instance inhabited : Inhabited t :=
  populate (mk 0 0%nat (mk_datetime 0 0 0 0 0) "" "").
End Tratamiento.

(** The store: the objects of each class, and the two class attributes
    [Cita._contador_id] and [Tratamiento._contador_id]. *)
Record Memoria := mk_Memoria
  { los_pacientes : list Paciente.t;
    las_citas : list Cita.t;
    los_tratamientos : list Tratamiento.t;
    Cita_contador_id : Z;
    Tratamiento_contador_id : Z }.

Definition memoria_inicial : Memoria := mk_Memoria [] [] [] 0 0.

Definition el_paciente (m : Memoria) (r : ref) : Paciente.t := los_pacientes m !!! r.
Definition la_cita (m : Memoria) (r : ref) : Cita.t := las_citas m !!! r.
Definition el_tratamiento (m : Memoria) (r : ref) : Tratamiento.t :=
  los_tratamientos m !!! r.

(** [Paciente(...)]: a new object. *)
Definition Paciente_new (id_paciente : Z)
    (nombre telefono direccion fecha_nacimiento historial_medico : string)
    (m : Memoria) : ref * Memoria :=
  (length (los_pacientes m),
   mk_Memoria
     (los_pacientes m ++
        [Paciente.__init__ id_paciente nombre telefono direccion
           fecha_nacimiento historial_medico])
     (las_citas m) (los_tratamientos m)
     (Cita_contador_id m) (Tratamiento_contador_id m)).

(** [Cita(paciente, fecha_hora, motivo)]: bumps the class counter first. *)
Definition Cita_new (paciente : ref) (fecha_hora : datetime) (motivo : string)
    (m : Memoria) : ref * Memoria :=
  let contador := Cita_contador_id m + 1 in
  (length (las_citas m),
   mk_Memoria (los_pacientes m)
     (las_citas m ++ [Cita.mk contador paciente fecha_hora motivo "Programada"])
     (los_tratamientos m) contador (Tratamiento_contador_id m)).

(** [Tratamiento(paciente, fecha, descripcion, odontologo)] *)
Definition Tratamiento_new (paciente : ref) (fecha : datetime)
    (descripcion odontologo : string) (m : Memoria) : ref * Memoria :=
  let contador := Tratamiento_contador_id m + 1 in
  (length (los_tratamientos m),
   mk_Memoria (los_pacientes m) (las_citas m)
     (los_tratamientos m ++
        [Tratamiento.mk contador paciente fecha descripcion odontologo])
     (Cita_contador_id m) contador).

(** Assignment to attributes of an object of the store. *)
Definition modificar_paciente (f : Paciente.t -> Paciente.t) (r : ref)
    (m : Memoria) : Memoria :=
  mk_Memoria (alter f r (los_pacientes m)) (las_citas m) (los_tratamientos m)
    (Cita_contador_id m) (Tratamiento_contador_id m).

Definition modificar_cita (f : Cita.t -> Cita.t) (r : ref) (m : Memoria) : Memoria :=
  mk_Memoria (los_pacientes m) (alter f r (las_citas m)) (los_tratamientos m)
    (Cita_contador_id m) (Tratamiento_contador_id m).

(** ** Sistemas de gestión *)

Module SistemaGestionPacientes.

Record t := mk { pacientes : list ref; _siguiente_id_paciente : Z }.

Definition __init__ : t := mk [] 1.

(** [inl]: the error dialog shown before [return None]. *)
Definition registrar_paciente (self : t)
    (nombre telefono direccion fecha_nacimiento historial_medico : string)
    (m : Memoria) : (Aviso + ref) * t * Memoria :=
  match strptime_fecha fecha_nacimiento with
  | None =>
      (inl (showerror "Error de Formato" "Fecha de Nacimiento debe ser AAAA-MM-DD."),
       self, m)
  | Some _ =>
      let '(paciente, m') :=
        Paciente_new (_siguiente_id_paciente self) nombre telefono direccion
          fecha_nacimiento historial_medico m in
      (inr paciente,
       mk (pacientes self ++ [paciente]) (_siguiente_id_paciente self + 1),
       m')
  end.

Fixpoint buscar_en (l : list ref) (id_paciente : Z) (m : Memoria) : option ref :=
  match l with
  | [] => None
  | paciente :: l' =>
      if decide (Paciente.id_paciente (el_paciente m paciente) = id_paciente)
      then Some paciente
      else buscar_en l' id_paciente m
  end.

Definition buscar_paciente_por_id (self : t) (id_paciente : Z) (m : Memoria)
  : option ref :=
  buscar_en (pacientes self) id_paciente m.

(** A [Paciente] object is always truthy, so [if paciente:] is the test
    for [None]. *)
Definition actualizar_paciente (self : t) (id_paciente : Z)
    (nombre telefono direccion fecha_nacimiento historial_medico : option string)
    (m : Memoria) : bool * Memoria :=
  match buscar_paciente_por_id self id_paciente m with
  | Some paciente =>
      (true,
       modificar_paciente
         (fun p => Paciente.actualizar_info p nombre telefono direccion
                     fecha_nacimiento historial_medico)
         paciente m)
  | None => (false, m)
  end.

Definition obtener_todos_los_pacientes (self : t) : list ref := pacientes self.

End SistemaGestionPacientes.

Module SistemaCitas.

(** [SistemaCitas(Observable)]: the inherited part, the appointments, and
    the availability table, which no method reads. *)
Record t := mk
  { observable : Observable.t;
    citas : list ref;
    disponibilidad : list (string * list string) }.

Definition __init__ : t :=
  mk Observable.__init__ []
     [("Lunes", ["09:00"; "10:00"; "11:00"; "14:00"; "15:00"]);
      ("Martes", ["09:00"; "10:00"; "14:00"; "15:00"; "16:00"])].

(** The loop of the availability check: is some appointment of the list at
    [dt_objeto] and "Programada"? *)
Fixpoint ocupado (l : list ref) (dt_objeto : datetime) (m : Memoria) : bool :=
  match l with
  | [] => false
  | cita_existente :: l' =>
      if bool_decide (Cita.fecha_hora (la_cita m cita_existente) = dt_objeto)
         && bool_decide (Cita.estado (la_cita m cita_existente) = "Programada")
      then true
      else ocupado l' dt_objeto m
  end.

Definition agendar_cita (self : t) (paciente : ref)
    (fecha_hora_str motivo : string) (m : Memoria) : (Aviso + ref) * t * Memoria :=
  match strptime_fecha_hora fecha_hora_str with
  | None =>
      (inl (showerror "Error de Formato" "Fecha y Hora debe ser AAAA-MM-DD HH:MM."),
       self, m)
  | Some dt_objeto =>
      if ocupado (citas self) dt_objeto m then
        (inl (showerror "Error" ("Horario " +:+ fecha_hora_str +:+ " ya ocupado.")),
         self, m)
      else
        let '(cita, m') := Cita_new paciente dt_objeto motivo m in
        (inr cita,
         mk (observable self) (citas self ++ [cita]) (disponibilidad self),
         m')
  end.

Definition cancelar_cita (self : t) (cita : ref) (m : Memoria) : bool * Memoria :=
  if py_in cita (citas self)
  then (true, modificar_cita (fun c => Cita.con_estado c "Cancelada") cita m)
  else (false, m).

Definition obtener_citas_por_paciente (self : t) (paciente : ref) (m : Memoria)
  : list ref :=
  filter (fun cita => Cita.paciente (la_cita m cita) = paciente
                      ∧ Cita.estado (la_cita m cita) = "Programada")
         (citas self).

Definition obtener_todas_las_citas_programadas (self : t) (m : Memoria) : list ref :=
  filter (fun cita => Cita.estado (la_cita m cita) = "Programada") (citas self).

End SistemaCitas.

Module SistemaHistorialTratamientos.

Record t := mk { registro_tratamientos : list ref }.

Definition __init__ : t := mk [].

Definition registrar_tratamiento (self : t) (paciente : ref)
    (fecha_str descripcion odontologo : string) (m : Memoria)
  : (Aviso + ref) * t * Memoria :=
  match strptime_fecha fecha_str with
  | None =>
      (inl (showerror "Error de Formato" "Fecha de Tratamiento debe ser AAAA-MM-DD."),
       self, m)
  | Some dt_objeto =>
      let '(tratamiento, m1) :=
        Tratamiento_new paciente dt_objeto descripcion odontologo m in
      let m2 :=
        modificar_paciente (fun p => Paciente.agregar_tratamiento p tratamiento)
          paciente m1 in
      (inr tratamiento, mk (registro_tratamientos self ++ [tratamiento]), m2)
  end.

Definition obtener_tratamientos_por_paciente (paciente : ref) (m : Memoria)
  : list ref :=
  Paciente.tratamientos (el_paciente m paciente).

(** The counting loop over the ledger. *)
Definition contar `{Unicode} (registro : list ref) (m : Memoria) : dict :=
  foldl (fun conteo_tratamientos tratamiento =>
           let desc := lower (strip (Tratamiento.descripcion (el_tratamiento m tratamiento))) in
           dict_set conteo_tratamientos desc (dict_get conteo_tratamientos desc 0 + 1))
        [] registro.

Definition obtener_tratamientos_mas_comunes `{Unicode} (self : t) (top_n : Z)
    (m : Memoria) : dict :=
  match registro_tratamientos self with
  | [] => []
  | _ =>
      let conteo_tratamientos := contar (registro_tratamientos self) m in
      let tratamientos_ordenados := sorted_reverse conteo_tratamientos in
      slice_hasta top_n tratamientos_ordenados
  end.

End SistemaHistorialTratamientos.

(** ** Reporte de citas por día *)

Module ReporteCitasPorDia.

Definition linea (m : Memoria) (cita : ref) : string :=
  "- " +:+ Paciente.nombre (el_paciente m (Cita.paciente (la_cita m cita)))
  +:+ " a las " +:+ strftime_HM (Cita.fecha_hora (la_cita m cita))
  +:+ " (" +:+ Cita.motivo (la_cita m cita) +:+ ")" +:+ nl.

(** The loop over [sistema_citas.citas]: the text and the counter. *)
Definition recorrer (l : list ref) (fecha_objetivo : Z * Z * Z) (m : Memoria)
    (inicio : string * Z) : string * Z :=
  foldl (fun '(contenido, contador) cita =>
           if decide (date (Cita.fecha_hora (la_cita m cita)) = fecha_objetivo)
           then (contenido +:+ linea m cita, contador + 1)
           else (contenido, contador))
        inicio l.

(** [fecha_str] is what [simpledialog.askstring] returned: [None] when the
    dialog was dismissed. *)
Definition generar (sistema_citas : SistemaCitas.t) (fecha_str : option string)
    (m : Memoria) : string :=
  match fecha_str with
  | None => "Generación de reporte cancelada."
  | Some EmptyString => "Generación de reporte cancelada."
  | Some fecha_str =>
      match strptime_fecha fecha_str with
      | None => "Formato de fecha inválido. Use AAAA-MM-DD."
      | Some dt =>
          let fecha_objetivo := date dt in
          let contenido :=
            "Citas Programadas para el " +:+ fecha_str +:+ ":" +:+ nl
            +:+ "--------------------------------------" +:+ nl in
          let '(contenido, contador) :=
            recorrer (SistemaCitas.citas sistema_citas) fecha_objetivo m
              (contenido, 0) in
          let contenido :=
            if contador =? 0
            then contenido +:+ "No hay citas programadas para esta fecha." +:+ nl
            else contenido in
          contenido +:+ nl +:+ "Total de citas: " +:+ str_Z contador +:+ nl
      end
  end.

End ReporteCitasPorDia.

(** ** The program as a whole *)

(** One instance of each service over one store, as [__main__] creates
    them. *)
Record Mundo := mk_Mundo
  { sistema_pac : SistemaGestionPacientes.t;
    sistema_cit : SistemaCitas.t;
    sistema_trat : SistemaHistorialTratamientos.t;
    memoria : Memoria }.

Definition mundo_inicial : Mundo :=
  mk_Mundo SistemaGestionPacientes.__init__ SistemaCitas.__init__
    SistemaHistorialTratamientos.__init__ memoria_inicial.

(** The calls of the service layer that change state. *)
Inductive Operacion :=
| Registrar_paciente (nombre telefono direccion fecha_nacimiento historial_medico : string)
| Actualizar_paciente (id_paciente : Z)
    (nombre telefono direccion fecha_nacimiento historial_medico : option string)
| Agendar_cita (paciente : ref) (fecha_hora_str motivo : string)
| Cancelar_cita (cita : ref)
| Registrar_tratamiento (paciente : ref) (fecha_str descripcion odontologo : string).

Definition aplicar (w : Mundo) (op : Operacion) : Mundo :=
  match op with
  | Registrar_paciente n t d f h =>
      let '(_, sp, m) :=
        SistemaGestionPacientes.registrar_paciente (sistema_pac w) n t d f h (memoria w) in
      mk_Mundo sp (sistema_cit w) (sistema_trat w) m
  | Actualizar_paciente i n t d f h =>
      let '(_, m) :=
        SistemaGestionPacientes.actualizar_paciente (sistema_pac w) i n t d f h (memoria w) in
      mk_Mundo (sistema_pac w) (sistema_cit w) (sistema_trat w) m
  | Agendar_cita p f mo =>
      let '(_, sc, m) := SistemaCitas.agendar_cita (sistema_cit w) p f mo (memoria w) in
      mk_Mundo (sistema_pac w) sc (sistema_trat w) m
  | Cancelar_cita c =>
      let '(_, m) := SistemaCitas.cancelar_cita (sistema_cit w) c (memoria w) in
      mk_Mundo (sistema_pac w) (sistema_cit w) (sistema_trat w) m
  | Registrar_tratamiento p f d o =>
      let '(_, st, m) :=
        SistemaHistorialTratamientos.registrar_tratamiento (sistema_trat w) p f d o (memoria w) in
      mk_Mundo (sistema_pac w) (sistema_cit w) st m
  end.

Definition correr (ops : list Operacion) : Mundo := foldl aplicar mundo_inicial ops.

(** The ids of the registered patients, in registry order. *)
Definition ids_registrados (w : Mundo) : list Z :=
  (fun r => Paciente.id_paciente (el_paciente (memoria w) r))
    <$> SistemaGestionPacientes.pacientes (sistema_pac w).

(** What the registry keeps true: it holds every patient object, in
    creation order; the patient created k-th has id k; the counter is the
    next id. *)
Definition registro_ok (w : Mundo) : Prop :=
  SistemaGestionPacientes.pacientes (sistema_pac w)
  = seq 0 (length (los_pacientes (memoria w)))
  /\ (forall i p, los_pacientes (memoria w) !! i = Some p ->
        Paciente.id_paciente p = Z.of_nat i + 1)
  /\ SistemaGestionPacientes._siguiente_id_paciente (sistema_pac w)
     = Z.of_nat (length (los_pacientes (memoria w))) + 1.

(** The patient objects a call finds in the store are still there after
    it, with the ids they had. *)
Definition conserva (m m' : Memoria) : Prop :=
  forall i q, los_pacientes m !! i = Some q ->
    exists p, los_pacientes m' !! i = Some p
              /\ Paciente.id_paciente p = Paciente.id_paciente q.

(** The end-to-end scenario: register "Juan Pérez", schedule
    "2024-06-01 10:00" for a checkup, cancel it, schedule the same slot
    again.  The value is what the four calls return and the final state of
    the two appointments. *)
Definition escenario_reagendar
  : option ((Aviso + ref) * bool * (Aviso + ref) * string * string) :=
  let '(p, _, m0) :=
    SistemaGestionPacientes.registrar_paciente SistemaGestionPacientes.__init__
      "Juan Pérez" "555-1234" "Calle Falsa 123" "1980-05-15" "" memoria_inicial in
  match p with
  | inr p =>
      let '(c1, sc1, m1) :=
        SistemaCitas.agendar_cita SistemaCitas.__init__ p "2024-06-01 10:00" "Checkup" m0 in
      match c1 with
      | inr cita =>
          let '(b, m2) := SistemaCitas.cancelar_cita sc1 cita m1 in
          let '(c2, sc2, m3) :=
            SistemaCitas.agendar_cita sc1 p "2024-06-01 10:00" "Checkup" m2 in
          Some (c1, b, c2, Cita.estado (la_cita m3 0%nat), Cita.estado (la_cita m3 1%nat))
      | inl _ => None
      end
  | inl _ => None
  end.

(** The tally as the specification words it, to compare with [contar]:
    the key of a treatment is its description trimmed and in lower case;
    the groups are the keys in the order in which they are first met; each
    group has the number of treatments with its key. *)
Definition clave `{Unicode} (m : Memoria) (tratamiento : ref) : string :=
  lower (strip (Tratamiento.descripcion (el_tratamiento m tratamiento))).

Fixpoint primeras_apariciones (l : list string) : list string :=
  match l with
  | [] => []
  | d :: l' => d :: filter (fun k => k ≠ d) (primeras_apariciones l')
  end.

Definition ocurrencias (k : string) (l : list string) : Z :=
  Z.of_nat (length (filter (fun d => d = k) l)).

Definition grupos_esperados (l : list string) : dict :=
  (fun k => (k, ocurrencias k l)) <$> primeras_apariciones l.

(** Decreasing order of the counts. *)
Definition no_creciente (a b : string * Z) : Prop := b.2 <= a.2.

(** A ledger with the treatments "Cleaning", "cleaning " and "Filling",
    recorded in that order for one patient. *)
Definition ejemplo_historial : SistemaHistorialTratamientos.t * Memoria :=
  let '(_, _, m0) :=
    SistemaGestionPacientes.registrar_paciente SistemaGestionPacientes.__init__
      "Juan Pérez" "555-1234" "Calle Falsa 123" "1980-05-15" "" memoria_inicial in
  let '(_, st1, m1) :=
    SistemaHistorialTratamientos.registrar_tratamiento
      SistemaHistorialTratamientos.__init__ 0%nat "2024-06-01" "Cleaning" "Dra. Alegre" m0 in
  let '(_, st2, m2) :=
    SistemaHistorialTratamientos.registrar_tratamiento
      st1 0%nat "2024-06-02" "cleaning " "Dra. Alegre" m1 in
  let '(_, st3, m3) :=
    SistemaHistorialTratamientos.registrar_tratamiento
      st2 0%nat "2024-06-03" "Filling" "Dr. Sonrisas" m2 in
  (st3, m3).

(** The appointments of the collection on a calendar day, whatever their
    status, as the specification describes the listing of the report. *)
Definition citas_del_dia (sistema_citas : SistemaCitas.t) (dia : Z * Z * Z)
    (m : Memoria) : list ref :=
  filter (fun cita => date (Cita.fecha_hora (la_cita m cita)) = dia)
         (SistemaCitas.citas sistema_citas).

(** Two appointments of "Juan Pérez" on 2024-06-01, the first one
    cancelled, and one on the next day. *)
Definition ejemplo_citas : SistemaCitas.t * Memoria :=
  let '(_, _, m0) :=
    SistemaGestionPacientes.registrar_paciente SistemaGestionPacientes.__init__
      "Juan Pérez" "555-1234" "Calle Falsa 123" "1980-05-15" "" memoria_inicial in
  let '(_, sc1, m1) :=
    SistemaCitas.agendar_cita SistemaCitas.__init__ 0%nat "2024-06-01 10:00" "Checkup" m0 in
  let '(_, m2) := SistemaCitas.cancelar_cita sc1 0%nat m1 in
  let '(_, sc3, m3) :=
    SistemaCitas.agendar_cita sc1 0%nat "2024-06-01 09:30" "Limpieza" m2 in
  let '(_, sc4, m4) :=
    SistemaCitas.agendar_cita sc3 0%nat "2024-06-02 10:00" "Control" m3 in
  (sc4, m4).

(** The registry after the two registrations of [__main__]. *)
Definition ejemplo_registro : SistemaGestionPacientes.t * Memoria :=
  let '(_, sp1, m1) :=
    SistemaGestionPacientes.registrar_paciente SistemaGestionPacientes.__init__
      "Juan Pérez" "555-1234" "Calle Falsa 123" "1980-05-15"
      "Alergia a la penicilina" memoria_inicial in
  let '(_, sp2, m2) :=
    SistemaGestionPacientes.registrar_paciente sp1
      "Ana López" "555-5678" "Av. Siempreviva 742" "1992-11-20" "" m1 in
  (sp2, m2).

(** ** The rest of the service layer *)

(** [a in b] on strings: [a] occurs in [b] as a contiguous piece. *)
Fixpoint empieza_con (a b : string) : bool :=
  match a, b with
  | EmptyString, _ => true
  | String x a', String y b' => bool_decide (x = y) && empieza_con a' b'
  | String _ _, EmptyString => false
  end.

Fixpoint py_in_str (a b : string) : bool :=
  empieza_con a b
  || match b with
     | String _ b' => py_in_str a b'
     | EmptyString => false
     end.

(** [SistemaGestionPacientes.buscar_paciente_por_nombre] *)
Definition buscar_paciente_por_nombre `{Unicode} (self : SistemaGestionPacientes.t)
    (consulta_nombre : string) (m : Memoria) : list ref :=
  filter (fun p => py_in_str (lower consulta_nombre)
                     (lower (Paciente.nombre (el_paciente m p))) = true)
         (SistemaGestionPacientes.pacientes self).

(** [str(dt)] for a [datetime] whose seconds and microseconds are 0:
    the ISO format with a blank, every field padded with zeros. *)
Definition cuatro_digitos (n : Z) : string :=
  (if n <? 1000 then "0" else "")
  +:+ (if n <? 100 then "0" else "")
  +:+ (if n <? 10 then "0" else "") +:+ str_Z n.

Definition str_datetime (dt : datetime) : string :=
  cuatro_digitos (year dt) +:+ "-" +:+ dos_digitos (month dt) +:+ "-"
  +:+ dos_digitos (day dt) +:+ " " +:+ dos_digitos (hour dt) +:+ ":"
  +:+ dos_digitos (minute dt) +:+ ":00".

(** What a command leaves behind: its return value, the error dialogs
    shown, the calls [actualizar] made on the listeners, and the state. *)
Record Ejecucion := mk_Ejecucion
  { retorno : bool;
    dialogos : list Aviso;
    entregas : list (ref * string);
    sistema_final : SistemaCitas.t;
    memoria_final : Memoria }.

Module AgendarCitaComando.

(** The command after [__init__]: the bound arguments; [cita] is [None]. *)
Record t := mk
  { paciente : ref; fecha_hora : string; motivo : string; cita : option ref }.

Definition __init__ (paciente : ref) (fecha_hora motivo : string) : t :=
  mk paciente fecha_hora motivo None.

Definition ejecutar (self : t) (sistema_citas : SistemaCitas.t) (m : Memoria)
  : t * Ejecucion :=
  let '(r, sc, m') :=
    SistemaCitas.agendar_cita sistema_citas (paciente self) (fecha_hora self)
      (motivo self) m in
  match r with
  | inr c =>
      (mk (paciente self) (fecha_hora self) (motivo self) (Some c),
       mk_Ejecucion true []
         (Observable.notificar (SistemaCitas.observable sc)
            ("Nueva cita agendada para "
             +:+ Paciente.nombre (el_paciente m' (paciente self))
             +:+ " el " +:+ fecha_hora self +:+ "."))
         sc m')
  | inl aviso =>
      (mk (paciente self) (fecha_hora self) (motivo self) None,
       mk_Ejecucion false [aviso] [] sc m')
  end.

End AgendarCitaComando.

Module CancelarCitaComando.

Definition ejecutar (cita : ref) (sistema_citas : SistemaCitas.t) (m : Memoria)
  : Ejecucion :=
  let '(b, m') := SistemaCitas.cancelar_cita sistema_citas cita m in
  if b then
    mk_Ejecucion true []
      (Observable.notificar (SistemaCitas.observable sistema_citas)
         ("Cita cancelada para "
          +:+ Paciente.nombre (el_paciente m' (Cita.paciente (la_cita m' cita)))
          +:+ " el " +:+ str_datetime (Cita.fecha_hora (la_cita m' cita)) +:+ "."))
      sistema_citas m'
  else mk_Ejecucion false [] [] sistema_citas m'.

End CancelarCitaComando.

Module ReporteListaPacientes.

Definition linea (m : Memoria) (i : Z) (paciente : ref) : string :=
  str_Z (i + 1) +:+ ". " +:+ Paciente.nombre (el_paciente m paciente)
  +:+ " - Tel: " +:+ Paciente.telefono (el_paciente m paciente) +:+ nl.

(** The loop over [enumerate(pacientes)]: the text and the next index. *)
Definition recorrer (pacientes : list ref) (m : Memoria) (inicio : string * Z)
  : string * Z :=
  foldl (fun '(contenido, i) paciente => (contenido +:+ linea m i paciente, i + 1))
        inicio pacientes.

Definition generar (pacientes : list ref) (m : Memoria) : string :=
  let contenido :=
    "Lista de Pacientes Registrados:" +:+ nl
    +:+ "----------------------------------" +:+ nl in
  let contenido :=
    match pacientes with
    | [] => contenido +:+ "No hay pacientes registrados." +:+ nl
    | _ => contenido
    end in
  (recorrer pacientes m (contenido, 0)).1.

End ReporteListaPacientes.

(** What the appointment book keeps true: the collection holds every
    appointment object, in creation order; the one created k-th has id k;
    the class counter is the number created; a status is "Programada" or
    "Cancelada"; two appointments that are both "Programada" are at
    different dates and times. *)
Definition citas_ok (w : Mundo) : Prop :=
  SistemaCitas.citas (sistema_cit w) = seq 0 (length (las_citas (memoria w)))
  /\ Cita_contador_id (memoria w) = Z.of_nat (length (las_citas (memoria w)))
  /\ (forall i c, las_citas (memoria w) !! i = Some c ->
        Cita.id_cita c = Z.of_nat i + 1
        /\ (Cita.estado c = "Programada" \/ Cita.estado c = "Cancelada"))
  /\ (forall i j ci cj,
        las_citas (memoria w) !! i = Some ci ->
        las_citas (memoria w) !! j = Some cj -> i ≠ j ->
        Cita.estado ci = "Programada" -> Cita.estado cj = "Programada" ->
        Cita.fecha_hora ci ≠ Cita.fecha_hora cj).

(** The same for the ledger. *)
Definition tratamientos_ok (w : Mundo) : Prop :=
  SistemaHistorialTratamientos.registro_tratamientos (sistema_trat w)
  = seq 0 (length (los_tratamientos (memoria w)))
  /\ Tratamiento_contador_id (memoria w)
     = Z.of_nat (length (los_tratamientos (memoria w)))
  /\ (forall i t, los_tratamientos (memoria w) !! i = Some t ->
        Tratamiento.id_tratamiento t = Z.of_nat i + 1).

(** A call made with objects that exist: the patient of a scheduling or of
    a treatment is a patient of the store. *)
Definition op_valida (w : Mundo) (op : Operacion) : Prop :=
  match op with
  | Agendar_cita p _ _ => (p < length (los_pacientes (memoria w)))%nat
  | Registrar_tratamiento p _ _ _ => (p < length (los_pacientes (memoria w)))%nat
  | _ => True
  end.

(** The states the program reaches from its start by such calls. *)
Inductive alcanzable : Mundo -> Prop :=
| alcanzable_inicio : alcanzable mundo_inicial
| alcanzable_paso w op :
    alcanzable w -> op_valida w op -> alcanzable (aplicar w op).

(** The histories agree with the ledger: every ledger entry is a treatment
    of a patient of the store, and the history of a patient is the ledger
    restricted to that patient. *)
Definition historial_ok (w : Mundo) : Prop :=
  (forall i t, los_tratamientos (memoria w) !! i = Some t ->
     (Tratamiento.paciente t < length (los_pacientes (memoria w)))%nat)
  /\ (forall p, (p < length (los_pacientes (memoria w)))%nat ->
        SistemaHistorialTratamientos.obtener_tratamientos_por_paciente p (memoria w)
        = filter (fun t => Tratamiento.paciente (el_tratamiento (memoria w) t) = p)
            (SistemaHistorialTratamientos.registro_tratamientos (sistema_trat w))).

(** The program of the examples: two patients, an appointment each at the
    same time of different days, a cancellation, and treatments. *)
Definition ejemplo_operaciones : list Operacion :=
  [Registrar_paciente "Juan Pérez" "555-1234" "Calle Falsa 123" "1980-05-15" "";
   Registrar_paciente "Ana López" "555-5678" "Av. Siempreviva 742" "1992-11-20" "";
   Agendar_cita 0%nat "2024-06-01 10:00" "Limpieza Dental";
   Agendar_cita 1%nat "2024-06-01 10:00" "Revisión General";
   Registrar_tratamiento 0%nat "2024-06-01" "Limpieza Dental" "Dra. Alegre";
   Cancelar_cita 0%nat;
   Agendar_cita 1%nat "2024-06-01 10:00" "Revisión General";
   Registrar_tratamiento 1%nat "2024-06-03" "limpieza dental " "Dra. Alegre";
   Registrar_tratamiento 0%nat "03/06/2024" "Extracción" "Dr. Sonrisas"].

(** A list of calls, each made with objects that exist when it is made. *)
Fixpoint validas (w : Mundo) (ops : list Operacion) : Prop :=
  match ops with
  | [] => True
  | op :: ops' => op_valida w op /\ validas (aplicar w op) ops'
  end.

(** The sum of the counts of a tally. *)
Definition total (d : dict) : Z := foldr (fun e acc => e.2 + acc) 0 d.

(** Trimmed lower case as the specification words it, on ASCII text, to
    compare with the key the counting loop computes: white space is one of
    the ten ASCII characters [str.isspace] accepts; a text is trimmed when
    it neither starts nor ends with white space; lower case replaces each
    capital letter by the small letter at the same place of the alphabet. *)
Definition es_blanco (c : ascii) : bool :=
  existsb (N.eqb (code c)) [9; 10; 11; 12; 13; 28; 29; 30; 31; 32]%N.

Fixpoint solo_blancos (s : string) : bool :=
  match s with
  | String c s' => es_blanco c && solo_blancos s'
  | EmptyString => true
  end.

Definition primero (s : string) : option ascii :=
  match s with
  | String c _ => Some c
  | EmptyString => None
  end.

Fixpoint ultimo (s : string) : option ascii :=
  match s with
  | EmptyString => None
  | String c EmptyString => Some c
  | String _ s' => ultimo s'
  end.

Definition recortado (s : string) : Prop :=
  (forall c, primero s = Some c -> es_blanco c = false)
  /\ (forall c, ultimo s = Some c -> es_blanco c = false).

Definition mayusculas : string := "ABCDEFGHIJKLMNOPQRSTUVWXYZ".
Definition minusculas : string := "abcdefghijklmnopqrstuvwxyz".

Fixpoint posicion (c : ascii) (s : string) : option nat :=
  match s with
  | String x s' => if bool_decide (x = c) then Some 0%nat else S <$> posicion c s'
  | EmptyString => None
  end.

Definition minuscula (c : ascii) : ascii :=
  match posicion c mayusculas with
  | Some i => default c (String.get i minusculas)
  | None => c
  end.

Fixpoint en_minusculas (s : string) : string :=
  match s with
  | String c s' => String (minuscula c) (en_minusculas s')
  | EmptyString => EmptyString
  end.

(** * Properties *)

(** ** Observable *)

Section Observable_props.
Import Observable.

Lemma list_remove_inl x l :
  x ∉ l <-> list_remove x l = inl (ValueError "list.remove(x): x not in list").
Proof.
  induction l as [|y l IH]; simpl.
  - split; [done | intros _; apply not_elem_of_nil].
  - destruct (decide (y = x)) as [->|Hne].
    + split; [intros H; exfalso; apply H; left | done].
    + rewrite not_elem_of_cons. destruct (list_remove x l) as [e|r].
      * split; [intros [_ H]; by apply IH | intros H; split; [congruence | by apply IH]].
      * split; [intros [_ H]; apply IH in H; done | done].
Qed.

Lemma list_remove_inr x l r :
  list_remove x l = inr r ->
  exists l1 l2, l = l1 ++ x :: l2 /\ r = l1 ++ l2 /\ x ∉ l1.
Proof.
  revert r. induction l as [|y l IH]; simpl; intros r H; [done|].
  destruct (decide (y = x)) as [->|Hne].
  - injection H as <-. exists [], l. split_and!; [done | done | apply not_elem_of_nil].
  - destruct (list_remove x l) as [e|r'] eqn:E; [done|]. injection H as <-.
    destruct (IH r' eq_refl) as (l1 & l2 & -> & -> & Hx).
    exists (y :: l1), l2. split_and!; [done | done |].
    rewrite not_elem_of_cons. split; [congruence | done].
Qed.

Lemma list_remove_elem_of x l :
  x ∈ l <-> exists r, list_remove x l = inr r.
Proof.
  split.
  - intros Hin. destruct (list_remove x l) as [e|r] eqn:E; [|by exists r].
    exfalso. assert (x ∉ l) as Hn; [|done].
    apply list_remove_inl. rewrite E. f_equal.
    clear Hin. revert e E. induction l as [|y l IH]; simpl; intros e E.
    + congruence.
    + destruct (decide (y = x)); [done|].
      destruct (list_remove x l) as [e'|]; [|done].
      injection E as <-. by apply IH.
  - intros [r Hr] . apply list_remove_inr in Hr as (l1 & l2 & -> & _ & _).
    apply elem_of_app. right. left.
Qed.

Lemma notificar_fmap self mensaje :
  notificar self mensaje = (fun o => (o, mensaje)) <$> _observadores self.
Proof.
  unfold notificar.
  enough (forall l acc,
    foldl (fun hechas o => hechas ++ [(o, mensaje)]) acc l
    = acc ++ ((fun o => (o, mensaje)) <$> l)) as H by apply (H _ []).
  induction l as [|o l IH]; intros acc; simpl.
  - by rewrite app_nil_r.
  - rewrite IH. by rewrite <- app_assoc.
Qed.

Lemma adjuntar_presente self o :
  o ∈ _observadores self -> adjuntar self o = self.
Proof.
  intros H. unfold adjuntar, py_in. by rewrite bool_decide_eq_true_2.
Qed.

Lemma adjuntar_ausente self o :
  o ∉ _observadores self -> adjuntar self o = mk (_observadores self ++ [o]).
Proof.
  intros H. unfold adjuntar, py_in. by rewrite bool_decide_eq_false_2.
Qed.

Lemma adjuntar_elem_of self o : o ∈ _observadores (adjuntar self o).
Proof.
  destruct (decide (o ∈ _observadores self)) as [H|H].
  - by rewrite adjuntar_presente.
  - rewrite adjuntar_ausente by done. simpl. apply elem_of_app. right. left.
Qed.

Lemma adjuntar_NoDup self o :
  NoDup (_observadores self) -> NoDup (_observadores (adjuntar self o)).
Proof.
  intros Hnd. destruct (decide (o ∈ _observadores self)) as [H|H].
  - by rewrite adjuntar_presente.
  - rewrite adjuntar_ausente by done. simpl. apply NoDup_app. split_and!; [done | | apply NoDup_singleton].
    intros x Hx Hx'. apply list_elem_of_singleton in Hx' as ->. done.
Qed.

Lemma paso_NoDup self c :
  NoDup (_observadores self) -> NoDup (_observadores (paso self c)).
Proof.
  intros Hnd. destruct c as [o|o]; simpl; [by apply adjuntar_NoDup|].
  unfold separar. destruct (list_remove o (_observadores self)) as [e|r] eqn:E; [done|].
  apply list_remove_inr in E as (l1 & l2 & Hl & -> & _). simpl.
  rewrite Hl in Hnd. apply NoDup_app in Hnd as (H1 & H2 & H3).
  apply NoDup_cons in H3 as [H3 H4].
  apply NoDup_app. split_and!; [done | | done].
  intros x Hx Hx'. apply (H2 x Hx). by right.
Qed.

Lemma ejecutar_NoDup cs : NoDup (_observadores (ejecutar cs)).
Proof.
  unfold ejecutar. induction cs as [|c cs IH] using rev_ind.
  - apply NoDup_nil_2.
  - rewrite foldl_app. simpl. by apply paso_NoDup.
Qed.

Lemma entregas_NoDup (l : list ref) (mensaje : string) x :
  NoDup l ->
  length (filter (fun e : ref * string => e.1 = x) ((fun o => (o, mensaje)) <$> l))
  = if bool_decide (x ∈ l) then 1%nat else 0%nat.
Proof.
  induction l as [|y l IH]; intros Hnd; [done|].
  apply NoDup_cons in Hnd as [Hy Hnd]. rewrite fmap_cons.
  destruct (decide (y = x)) as [->|Hne].
  - rewrite filter_cons_True by done. simpl. rewrite IH by done.
    rewrite bool_decide_eq_false_2 by done.
    rewrite bool_decide_eq_true_2 by left. done.
  - rewrite filter_cons_False by done. rewrite IH by done.
    destruct (decide (x ∈ l)) as [Hx|Hx].
    + rewrite !bool_decide_eq_true_2; [done | by right | done].
    + rewrite !bool_decide_eq_false_2; [done | | done].
      rewrite not_elem_of_cons. split; [congruence | done].
Qed.

(** C8. Subscribing a listener that is already subscribed changes nothing,
    so subscribing is idempotent; the subscribers of a hook are pairwise
    distinct at every point of its life; [notificar] calls [actualizar]
    with the text on the subscribers in list order, which is the order in
    which they were subscribed (a new one goes last), hence once on each
    subscriber and on nobody else; after subscribing the same listener
    twice it receives the text exactly once. *)
Theorem adjuntar_idempotente_notificar_una_vez :
  (forall self o, o ∈ _observadores self -> adjuntar self o = self)
  /\ (forall self o, adjuntar (adjuntar self o) o = adjuntar self o)
  /\ (forall self o, o ∉ _observadores self ->
        _observadores (adjuntar self o) = _observadores self ++ [o])
  /\ (forall self mensaje,
        notificar self mensaje = (fun o => (o, mensaje)) <$> _observadores self)
  /\ (forall cs mensaje,
        let self := ejecutar cs in
        NoDup (_observadores self)
        /\ forall x,
             length (filter (fun e : ref * string => e.1 = x) (notificar self mensaje))
             = if bool_decide (x ∈ _observadores self) then 1%nat else 0%nat)
  /\ (forall cs o mensaje,
        let self := adjuntar (adjuntar (ejecutar cs) o) o in
        filter (fun e : ref * string => e.1 = o) (notificar self mensaje)
        = [(o, mensaje)]).
Proof.
  split_and!.
  - apply adjuntar_presente.
  - intros self o. apply adjuntar_presente, adjuntar_elem_of.
  - intros self o H. by rewrite adjuntar_ausente.
  - apply notificar_fmap.
  - intros cs mensaje self. split; [apply ejecutar_NoDup|].
    intros x. rewrite notificar_fmap. apply entregas_NoDup, ejecutar_NoDup.
  - intros cs o mensaje self.
    assert (NoDup (_observadores self)) as Hnd
      by (do 2 apply adjuntar_NoDup; apply ejecutar_NoDup).
    assert (o ∈ _observadores self) as Hin by apply adjuntar_elem_of.
    pose proof (entregas_NoDup (_observadores self) mensaje o Hnd) as Hlen.
    rewrite bool_decide_eq_true_2 in Hlen by done.
    rewrite notificar_fmap.
    destruct (filter _ _) as [|e [|e' l]] eqn:E; simpl in Hlen; try lia.
    assert (e ∈ filter (fun e : ref * string => e.1 = o)
                  ((fun o => (o, mensaje)) <$> _observadores self)) as He
      by (rewrite E; left).
    apply list_elem_of_filter in He as [He1 He2].
    apply list_elem_of_fmap in He2 as (y & -> & _). simpl in He1. by subst.
Qed.

(** C10. [separar] has no handler around [list.remove]: with a listener
    that is not subscribed the call ends in the ValueError of the removal
    (never in a hook returned unchanged or in a failure value), and it
    returns normally, with the first occurrence of the listener removed,
    exactly when the listener is subscribed. *)
Theorem separar_no_suscrito_lanza (self : Observable.t) (o : ref) :
  (o ∉ _observadores self
   <-> separar self o = inl (ValueError "list.remove(x): x not in list"))
  /\ (o ∈ _observadores self <-> exists self', separar self o = inr self')
  /\ (forall self', separar self o = inr self' ->
        exists l1 l2, _observadores self = l1 ++ o :: l2
                      /\ _observadores self' = l1 ++ l2 /\ o ∉ l1).
Proof.
  unfold separar. split_and!.
  - rewrite list_remove_inl.
    destruct (list_remove o (_observadores self)); split; congruence.
  - rewrite list_remove_elem_of. split.
    + intros [r ->]. by eexists.
    + intros [self' H]. destruct (list_remove o (_observadores self)); [done | by eexists].
  - intros self' H.
    destruct (list_remove o (_observadores self)) as [e|r] eqn:E; [done|].
    injection H as <-. by apply list_remove_inr.
Qed.

End Observable_props.

(** ** SistemaGestionPacientes *)

Section Pacientes_props.
Import SistemaGestionPacientes.

Lemma registrar_paciente_invalida self n t d f h m :
  strptime_fecha f = None ->
  registrar_paciente self n t d f h m
  = (inl (showerror "Error de Formato" "Fecha de Nacimiento debe ser AAAA-MM-DD."),
     self, m).
Proof. intros H. unfold registrar_paciente. by rewrite H. Qed.

Lemma registrar_paciente_valida self n t d f h m :
  is_Some (strptime_fecha f) ->
  registrar_paciente self n t d f h m
  = (inr (length (los_pacientes m)),
     mk (pacientes self ++ [length (los_pacientes m)]) (_siguiente_id_paciente self + 1),
     mk_Memoria
       (los_pacientes m ++ [Paciente.mk (_siguiente_id_paciente self) n t d f h []])
       (las_citas m) (los_tratamientos m)
       (Cita_contador_id m) (Tratamiento_contador_id m)).
Proof. intros [dt H]. unfold registrar_paciente. by rewrite H. Qed.

(** C3. A registration whose birth date [strptime] rejects (as it does
    "15/05/1980") shows the format error and returns nothing, and the
    registry and the store are what they were: no patient is added and the
    next-id counter keeps its value, so the next registration behaves as it
    would have without the failed call.  A registration whose date parses
    creates the patient with the given fields and the next id, stores it
    last in the registry, and returns it. *)
Theorem registrar_paciente_fecha_invalida_sin_cambios
    (self : SistemaGestionPacientes.t) (nombre telefono direccion
     fecha_nacimiento historial_medico : string) (m : Memoria) :
  strptime_fecha "15/05/1980" = None
  /\ match strptime_fecha fecha_nacimiento with
     | None =>
         exists self' m',
           registrar_paciente self nombre telefono direccion fecha_nacimiento
             historial_medico m
           = (inl (showerror "Error de Formato"
                     "Fecha de Nacimiento debe ser AAAA-MM-DD."), self', m')
           /\ self' = self /\ m' = m
           /\ pacientes self' = pacientes self
           /\ _siguiente_id_paciente self' = _siguiente_id_paciente self
           /\ forall n t d f h,
                registrar_paciente self' n t d f h m'
                = registrar_paciente self n t d f h m
     | Some _ =>
         exists paciente self' m',
           registrar_paciente self nombre telefono direccion fecha_nacimiento
             historial_medico m = (inr paciente, self', m')
           /\ los_pacientes m !! paciente = None
           /\ los_pacientes m' !! paciente
              = Some (Paciente.mk (_siguiente_id_paciente self) nombre telefono
                        direccion fecha_nacimiento historial_medico [])
           /\ pacientes self' = pacientes self ++ [paciente]
           /\ _siguiente_id_paciente self' = _siguiente_id_paciente self + 1
           /\ (forall r, r ≠ paciente -> los_pacientes m' !! r = los_pacientes m !! r)
           /\ las_citas m' = las_citas m
           /\ los_tratamientos m' = los_tratamientos m
     end.
Proof.
  split; [by vm_compute|].
  destruct (strptime_fecha fecha_nacimiento) as [dt|] eqn:E.
  - rewrite registrar_paciente_valida by (by rewrite E).
    eexists _, _, _. split; [reflexivity|]. simpl. split_and!; try done.
    + apply lookup_ge_None. lia.
    + rewrite lookup_app_r by lia. by rewrite Nat.sub_diag.
    + intros r Hr. destruct (decide (r < length (los_pacientes m))%nat).
      * by rewrite lookup_app_l.
      * rewrite !lookup_ge_None_2; [done | lia |].
        rewrite length_app. simpl. lia.
  - rewrite registrar_paciente_invalida by done.
    by eexists _, _.
Qed.

Lemma alter_conserva_id (f : Paciente.t -> Paciente.t) r (l : list Paciente.t) i p :
  (forall q, Paciente.id_paciente (f q) = Paciente.id_paciente q) ->
  alter f r l !! i = Some p ->
  exists q, l !! i = Some q /\ Paciente.id_paciente q = Paciente.id_paciente p.
Proof.
  intros Hf. rewrite list_lookup_alter. case_decide as Hd.
  - subst. destruct (l !! i) as [q|]; simpl; [|done].
    intros [= <-]. exists q. by rewrite Hf.
  - intros H. by exists p.
Qed.

Lemma lookup_conserva_id (f : Paciente.t -> Paciente.t) r (l : list Paciente.t) i q :
  (forall q, Paciente.id_paciente (f q) = Paciente.id_paciente q) ->
  l !! i = Some q ->
  exists p, alter f r l !! i = Some p /\ Paciente.id_paciente p = Paciente.id_paciente q.
Proof.
  intros Hf Hq. rewrite list_lookup_alter. case_decide as Hd.
  - subst. rewrite Hq. simpl. eexists. split; [done | apply Hf].
  - eauto.
Qed.

Lemma conserva_refl m : conserva m m.
Proof. intros i q H. eauto. Qed.

Lemma conserva_igual m m' : los_pacientes m' = los_pacientes m -> conserva m m'.
Proof. intros Hm i q H. rewrite Hm. eauto. Qed.

Lemma conserva_modificar f r m :
  (forall q, Paciente.id_paciente (f q) = Paciente.id_paciente q) ->
  conserva m (modificar_paciente f r m).
Proof. intros Hf i q H. simpl. by apply lookup_conserva_id. Qed.

Lemma aplicar_conserva w op : conserva (memoria w) (memoria (aplicar w op)).
Proof.
  destruct op as [n t d f h|i n t d f h|p f mo|c|p f d o]; simpl.
  - unfold registrar_paciente.
    destruct (strptime_fecha f); simpl; [|apply conserva_refl].
    intros i q H. exists q. split; [by apply lookup_app_l_Some | done].
  - unfold actualizar_paciente.
    destruct (buscar_paciente_por_id _ _ _); simpl; [|apply conserva_refl].
    by apply conserva_modificar.
  - unfold SistemaCitas.agendar_cita.
    destruct (strptime_fecha_hora f); simpl; [|apply conserva_refl].
    destruct (SistemaCitas.ocupado _ _ _); simpl; by apply conserva_igual.
  - unfold SistemaCitas.cancelar_cita.
    destruct (py_in _ _); simpl; by apply conserva_igual.
  - unfold SistemaHistorialTratamientos.registrar_tratamiento.
    destruct (strptime_fecha f); simpl; [|apply conserva_refl].
    intros i q H. simpl. by apply lookup_conserva_id.
Qed.

Lemma aplicar_prefijo w op :
  pacientes (sistema_pac w) `prefix_of` pacientes (sistema_pac (aplicar w op)).
Proof.
  destruct op as [n t d f h|i n t d f h|p f mo|c|p f d o]; simpl.
  - unfold registrar_paciente. destruct (strptime_fecha f); simpl; [|done].
    by apply prefix_app_r.
  - by destruct (actualizar_paciente _ _ _ _ _ _ _ _).
  - by destruct (SistemaCitas.agendar_cita _ _ _ _ _) as [[? ?] ?].
  - by destruct (SistemaCitas.cancelar_cita _ _ _).
  - by destruct (SistemaHistorialTratamientos.registrar_tratamiento _ _ _ _ _ _) as [[? ?] ?].
Qed.

Lemma registro_ok_alter f r w m' :
  (forall q, Paciente.id_paciente (f q) = Paciente.id_paciente q) ->
  los_pacientes m' = alter f r (los_pacientes (memoria w)) ->
  registro_ok w ->
  registro_ok (mk_Mundo (sistema_pac w) (sistema_cit w) (sistema_trat w) m').
Proof.
  intros Hf Hm (H1 & H2 & H3). unfold registro_ok. simpl. rewrite Hm, length_alter.
  split_and!; [done | | done].
  intros i p Hp. apply alter_conserva_id in Hp as (q & Hq & <-); [|done]. eauto.
Qed.

Lemma registro_ok_igual w sc st m' :
  los_pacientes m' = los_pacientes (memoria w) ->
  registro_ok w -> registro_ok (mk_Mundo (sistema_pac w) sc st m').
Proof. intros Hm H. unfold registro_ok in *. simpl. by rewrite Hm. Qed.

Lemma aplicar_registro_ok w op : registro_ok w -> registro_ok (aplicar w op).
Proof.
  intros Hw. destruct op as [n t d f h|i n t d f h|p f mo|c|p f d o]; simpl.
  - unfold registrar_paciente. destruct (strptime_fecha f); simpl.
    + destruct Hw as (H1 & H2 & H3). unfold registro_ok. simpl.
      rewrite length_app. simpl. split_and!.
      * rewrite H1, Nat.add_1_r, seq_S. done.
      * intros i p Hp. apply lookup_app_Some in Hp as [Hp|[Hlen Hp]]; [eauto|].
        destruct (i - length (los_pacientes (memoria w)))%nat as [|k] eqn:Ek;
          simpl in Hp; [|done].
        injection Hp as <-. simpl. rewrite H3. f_equal. lia.
      * rewrite H3. lia.
    + by destruct w.
  - unfold actualizar_paciente.
    destruct (buscar_paciente_por_id _ _ _) as [r|]; simpl; [|by destruct w].
    by apply (registro_ok_alter
                (fun p => Paciente.actualizar_info p n t d f h) r).
  - unfold SistemaCitas.agendar_cita.
    destruct (strptime_fecha_hora f); simpl; [|by destruct w].
    destruct (SistemaCitas.ocupado _ _ _); simpl; [by destruct w|].
    by apply registro_ok_igual.
  - unfold SistemaCitas.cancelar_cita.
    destruct (py_in _ _); simpl; [|by destruct w].
    by apply registro_ok_igual.
  - unfold SistemaHistorialTratamientos.registrar_tratamiento.
    destruct (strptime_fecha f); simpl; [|by destruct w].
    destruct Hw as (H1 & H2 & H3). unfold registro_ok. simpl.
    rewrite length_alter. split_and!; [done | | done].
    intros i q Hq. apply alter_conserva_id in Hq as (q' & Hq' & <-); [|done]. eauto.
Qed.

Lemma correr_registro_ok ops : registro_ok (correr ops).
Proof.
  unfold correr. induction ops as [|op ops IH] using rev_ind.
  - unfold registro_ok. simpl. split_and!; [done | | done].
    intros i p H. by rewrite lookup_nil in H.
  - rewrite foldl_app. simpl. by apply aplicar_registro_ok.
Qed.

Lemma registro_ok_ids w :
  registro_ok w ->
  ids_registrados w
  = (fun k => Z.of_nat k) <$> seq 1 (length (pacientes (sistema_pac w))).
Proof.
  intros (H1 & H2 & H3). unfold ids_registrados. rewrite H1, length_seq.
  apply list_eq. intros i. rewrite !list_lookup_fmap.
  destruct (decide (i < length (los_pacientes (memoria w)))%nat) as [Hi|Hi].
  - rewrite !lookup_seq_lt by done. simpl.
    destruct (los_pacientes (memoria w) !! i) as [p|] eqn:Ep.
    + unfold el_paciente. rewrite (list_lookup_total_correct _ _ _ Ep).
      f_equal. rewrite (H2 _ _ Ep). lia.
    + apply lookup_ge_None in Ep. lia.
  - rewrite !lookup_seq_ge by lia. done.
Qed.

(** C4. At every point of a run of the service layer from its start, the
    ids of the registered patients, in registration order, are 1, 2, ..., n:
    sequential from 1, strictly increasing and pairwise distinct.  The next
    successful registration returns a patient whose id is n + 1, larger
    than every id given so far, so no id is given twice.  No call of the
    service layer (registration, update, scheduling, cancelling, recording
    a treatment) removes a patient from the registry or changes the id of
    a registered patient. *)
Theorem ids_secuenciales_unicos_inmutables (ops : list Operacion) :
  let w := correr ops in
  let n := length (pacientes (sistema_pac w)) in
  ids_registrados w = (fun k => Z.of_nat k) <$> seq 1 n
  /\ NoDup (ids_registrados w)
  /\ (forall i j a b, (i < j)%nat ->
        ids_registrados w !! i = Some a -> ids_registrados w !! j = Some b -> a < b)
  /\ (forall nombre telefono direccion fecha_nacimiento historial_medico,
        is_Some (strptime_fecha fecha_nacimiento) ->
        exists paciente sp' m',
          registrar_paciente (sistema_pac w) nombre telefono direccion
            fecha_nacimiento historial_medico (memoria w) = (inr paciente, sp', m')
          /\ Paciente.id_paciente (el_paciente m' paciente) = Z.of_nat n + 1
          /\ forall a, a ∈ ids_registrados w -> a < Z.of_nat n + 1)
  /\ (forall op,
        let w' := aplicar w op in
        pacientes (sistema_pac w) `prefix_of` pacientes (sistema_pac w')
        /\ forall r, r ∈ pacientes (sistema_pac w) ->
             Paciente.id_paciente (el_paciente (memoria w') r)
             = Paciente.id_paciente (el_paciente (memoria w) r)).
Proof.
  intros w n.
  pose proof (correr_registro_ok ops) as Hok. fold w in Hok.
  pose proof (registro_ok_ids w Hok) as Hids. fold n in Hids.
  destruct Hok as (H1 & H2 & H3).
  assert (n = length (los_pacientes (memoria w))) as Hn
    by (unfold n; by rewrite H1, length_seq).
  split_and!.
  - done.
  - rewrite Hids. apply NoDup_fmap; [apply Nat2Z.inj' | apply NoDup_seq].
  - intros i j a b Hij. rewrite Hids, !list_lookup_fmap.
    intros Ha Hb.
    destruct (seq 1 n !! i) as [x|] eqn:Ex; [|done].
    destruct (seq 1 n !! j) as [y|] eqn:Ey; [|done].
    apply lookup_seq in Ex as [-> _]. apply lookup_seq in Ey as [-> _].
    simpl in Ha, Hb. injection Ha as <-. injection Hb as <-. lia.
  - intros nombre telefono direccion fecha historial Hf.
    rewrite registrar_paciente_valida by done.
    eexists _, _, _. split; [reflexivity|]. split.
    + unfold el_paciente. simpl. rewrite lookup_total_app_r by lia.
      rewrite Nat.sub_diag. simpl. rewrite H3. lia.
    + intros a. rewrite Hids. intros (k & -> & Hk)%list_elem_of_fmap.
      apply elem_of_seq in Hk. lia.
  - intros op w'. split; [apply aplicar_prefijo|].
    intros r Hr. rewrite H1 in Hr. apply elem_of_seq in Hr.
    destruct (lookup_lt_is_Some_2 (los_pacientes (memoria w)) r) as [q Hq]; [lia|].
    destruct (aplicar_conserva w op r q Hq) as (p' & Hp' & Hid).
    unfold el_paciente.
    rewrite (list_lookup_total_correct _ _ _ Hq).
    by rewrite (list_lookup_total_correct _ _ _ Hp').
Qed.

Lemma buscar_en_None l id m :
  buscar_en l id m = None
  <-> forall r, r ∈ l -> Paciente.id_paciente (el_paciente m r) ≠ id.
Proof.
  induction l as [|x l IH]; simpl.
  - split; [intros _ r Hr; by apply elem_of_nil in Hr | done].
  - case_decide as Hd.
    + split; [done | intros H; exfalso; apply (H x); [left | done]].
    + rewrite IH. split.
      * intros H r [->|Hr]%elem_of_cons; [done | by apply H].
      * intros H r Hr. apply H. by right.
Qed.

Lemma buscar_en_Some l id m p :
  buscar_en l id m = Some p ->
  exists l1 l2, l = l1 ++ p :: l2
    /\ Paciente.id_paciente (el_paciente m p) = id
    /\ forall r, r ∈ l1 -> Paciente.id_paciente (el_paciente m r) ≠ id.
Proof.
  induction l as [|x l IH]; simpl; [done|].
  case_decide as Hd.
  - intros [= <-]. exists [], l. split_and!; [done | done |].
    intros r Hr. by apply elem_of_nil in Hr.
  - intros H. destruct (IH H) as (l1 & l2 & -> & Hid & Hl1).
    exists (x :: l1), l2. split_and!; [done | done |].
    intros r [->|Hr]%elem_of_cons; [done | by apply Hl1].
Qed.

(** C7. [actualizar_paciente] looks the id up in registry order.  When no
    registered patient has it, the call returns [False] and the store is
    unchanged.  Otherwise it returns [True] and, in the first registered
    patient with that id, each field for which a non-empty string is
    supplied takes that string, and each field for which [None] or the
    empty string is supplied keeps its value; the id and the treatment
    history of that patient, every other patient, the appointments and the
    treatments are unchanged.  A supplied birth date is stored as given,
    whether or not [strptime] accepts it (for instance "15/05/1980"). *)
Theorem actualizar_paciente_campos_no_vacios
    (self : SistemaGestionPacientes.t) (id_paciente : Z)
    (nombre telefono direccion fecha_nacimiento historial_medico : option string)
    (m : Memoria)
    (Hobj : forall r, r ∈ pacientes self -> (r < length (los_pacientes m))%nat) :
  let nuevo (valor : option string) (antes despues : string) :=
    (valor = None \/ valor = Some "" -> despues = antes)
    /\ (forall s, valor = Some s -> s ≠ "" -> despues = s) in
  ((forall r, r ∈ pacientes self -> Paciente.id_paciente (el_paciente m r) ≠ id_paciente)
   /\ actualizar_paciente self id_paciente nombre telefono direccion
        fecha_nacimiento historial_medico m = (false, m))
  \/ (exists paciente m' l1 l2,
        actualizar_paciente self id_paciente nombre telefono direccion
          fecha_nacimiento historial_medico m = (true, m')
        /\ pacientes self = l1 ++ paciente :: l2
        /\ Paciente.id_paciente (el_paciente m paciente) = id_paciente
        /\ (forall r, r ∈ l1 -> Paciente.id_paciente (el_paciente m r) ≠ id_paciente)
        /\ nuevo nombre (Paciente.nombre (el_paciente m paciente))
             (Paciente.nombre (el_paciente m' paciente))
        /\ nuevo telefono (Paciente.telefono (el_paciente m paciente))
             (Paciente.telefono (el_paciente m' paciente))
        /\ nuevo direccion (Paciente.direccion (el_paciente m paciente))
             (Paciente.direccion (el_paciente m' paciente))
        /\ nuevo fecha_nacimiento (Paciente.fecha_nacimiento (el_paciente m paciente))
             (Paciente.fecha_nacimiento (el_paciente m' paciente))
        /\ nuevo historial_medico (Paciente.historial_medico (el_paciente m paciente))
             (Paciente.historial_medico (el_paciente m' paciente))
        /\ Paciente.id_paciente (el_paciente m' paciente)
           = Paciente.id_paciente (el_paciente m paciente)
        /\ Paciente.tratamientos (el_paciente m' paciente)
           = Paciente.tratamientos (el_paciente m paciente)
        /\ (forall r, r ≠ paciente -> los_pacientes m' !! r = los_pacientes m !! r)
        /\ length (los_pacientes m') = length (los_pacientes m)
        /\ las_citas m' = las_citas m
        /\ los_tratamientos m' = los_tratamientos m
        /\ Cita_contador_id m' = Cita_contador_id m
        /\ Tratamiento_contador_id m' = Tratamiento_contador_id m).
Proof.
  intros nuevo. unfold actualizar_paciente, buscar_paciente_por_id.
  destruct (buscar_en (pacientes self) id_paciente m) as [p|] eqn:E.
  - right. apply buscar_en_Some in E as (l1 & l2 & Hl & Hid & Hl1).
    exists p, (modificar_paciente
                 (fun q => Paciente.actualizar_info q nombre telefono direccion
                             fecha_nacimiento historial_medico) p m), l1, l2.
    assert (p < length (los_pacientes m))%nat as Hp.
    { apply Hobj. rewrite Hl. apply elem_of_app. right. left. }
    assert (forall v a, nuevo v a (Paciente.si_valor v a)) as Hnuevo.
    { intros [[|c s]|] a; split; simpl; try done.
      - intros s [= <-]. done.
      - intros [H|H]; done.
      - intros s' [= <-]. done. }
    unfold el_paciente. simpl.
    rewrite list_lookup_total_alter_eq by done. simpl.
    split_and!; try done; try apply Hnuevo.
    + intros r Hr. by rewrite list_lookup_alter_ne.
    + apply length_alter.
  - left. split; [by apply buscar_en_None | done].
Qed.

Lemma actualizar_paciente_campos_no_vacios_witness :
  exists m',
    actualizar_paciente ejemplo_registro.1 2
      None (Some "") None (Some "15/05/1980") None ejemplo_registro.2 = (true, m')
    /\ Paciente.fecha_nacimiento (el_paciente m' 1%nat) = "15/05/1980"
    /\ Paciente.telefono (el_paciente m' 1%nat) = "555-5678"
    /\ strptime_fecha "15/05/1980" = None.
Proof.
  destruct (actualizar_paciente_campos_no_vacios ejemplo_registro.1 2
              None (Some "") None (Some "15/05/1980") None ejemplo_registro.2)
    as [[H _]|H].
  - intros r Hr. vm_compute in Hr. vm_compute.
    apply elem_of_cons in Hr as [->|Hr]; [lia|].
    apply list_elem_of_singleton in Hr as ->. lia.
  - exfalso. apply (H 1%nat); [right; left | reflexivity].
  - destruct H as (p & m' & l1 & l2 & Hcall & _).
    exists m'. split; [exact Hcall|].
    vm_compute in Hcall. injection Hcall as <-. by vm_compute.
Defined.

End Pacientes_props.

(** ** SistemaCitas *)

Section Citas_props.
Import SistemaCitas.

(** The availability check finds an appointment exactly when one of the
    collection is at that date and time and "Programada". *)
Lemma ocupado_true l dt m :
  ocupado l dt m = true
  <-> exists c, c ∈ l /\ Cita.fecha_hora (la_cita m c) = dt
                /\ Cita.estado (la_cita m c) = "Programada".
Proof.
  induction l as [|x l IH]; simpl.
  - split; [done | intros (c & Hc & _); by apply elem_of_nil in Hc].
  - destruct (bool_decide (Cita.fecha_hora (la_cita m x) = dt)
              && bool_decide (Cita.estado (la_cita m x) = "Programada")) eqn:E.
    + apply andb_true_iff in E as [E1%bool_decide_eq_true E2%bool_decide_eq_true].
      split; [intros _; exists x; split_and!; [left | done | done] | done].
    + rewrite IH. split.
      * intros (c & Hc & H1 & H2). exists c. split_and!; [by right | done | done].
      * intros (c & [->|Hc]%elem_of_cons & H1 & H2); [|by exists c].
        rewrite !bool_decide_eq_true_2 in E by done. done.
Qed.

Lemma ocupado_false l dt m :
  ocupado l dt m = false
  <-> forall c, c ∈ l -> ~ (Cita.fecha_hora (la_cita m c) = dt
                            /\ Cita.estado (la_cita m c) = "Programada").
Proof.
  rewrite <- not_true_iff_false, ocupado_true. split.
  - intros H c Hc [H1 H2]. apply H. by exists c.
  - intros H (c & Hc & H1 & H2). by apply (H c).
Qed.

Lemma agendar_cita_libre self paciente fecha_hora_str motivo m dt :
  strptime_fecha_hora fecha_hora_str = Some dt ->
  ocupado (citas self) dt m = false ->
  agendar_cita self paciente fecha_hora_str motivo m
  = (inr (length (las_citas m)),
     mk (observable self) (citas self ++ [length (las_citas m)]) (disponibilidad self),
     mk_Memoria (los_pacientes m)
       (las_citas m ++
          [Cita.mk (Cita_contador_id m + 1) paciente dt motivo "Programada"])
       (los_tratamientos m) (Cita_contador_id m + 1) (Tratamiento_contador_id m)).
Proof. intros H1 H2. unfold agendar_cita. by rewrite H1, H2. Qed.

Lemma agendar_cita_ocupado self paciente fecha_hora_str motivo m dt :
  strptime_fecha_hora fecha_hora_str = Some dt ->
  ocupado (citas self) dt m = true ->
  agendar_cita self paciente fecha_hora_str motivo m
  = (inl (showerror "Error" ("Horario " +:+ fecha_hora_str +:+ " ya ocupado.")),
     self, m).
Proof. intros H1 H2. unfold agendar_cita. by rewrite H1, H2. Qed.

(** A reference other than the one a new object gets reads the same object
    before and after the creation. *)
Lemma la_cita_tras_crear m x m' r :
  las_citas m' = las_citas m ++ [x] ->
  r ≠ length (las_citas m) -> la_cita m' r = la_cita m r.
Proof.
  intros Hm Hr. unfold la_cita. rewrite Hm.
  destruct (decide (r < length (las_citas m))%nat) as [Hlt|Hge].
  - by rewrite lookup_total_app_l.
  - rewrite !list_lookup_total_alt.
    rewrite !lookup_ge_None_2; [done | lia |]. rewrite length_app. simpl. lia.
Qed.

Lemma la_cita_creada m x m' :
  las_citas m' = las_citas m ++ [x] -> la_cita m' (length (las_citas m)) = x.
Proof.
  intros Hm. unfold la_cita. rewrite Hm, lookup_total_app_r by lia.
  by rewrite Nat.sub_diag.
Qed.

Lemma cancelar_cita_miembro self cita m :
  cita ∈ citas self ->
  cancelar_cita self cita m
  = (true, modificar_cita (fun c => Cita.con_estado c "Cancelada") cita m).
Proof. intros H. unfold cancelar_cita, py_in. by rewrite bool_decide_eq_true_2. Qed.

Lemma cancelar_cita_ajena self cita m :
  cita ∉ citas self -> cancelar_cita self cita m = (false, m).
Proof. intros H. unfold cancelar_cita, py_in. by rewrite bool_decide_eq_false_2. Qed.

Lemma la_cita_cancelada m cita :
  (cita < length (las_citas m))%nat ->
  la_cita (modificar_cita (fun c => Cita.con_estado c "Cancelada") cita m) cita
  = Cita.con_estado (la_cita m cita) "Cancelada".
Proof. intros H. unfold la_cita. simpl. by rewrite list_lookup_total_alter_eq. Qed.

Lemma la_cita_otra m f cita r :
  r ≠ cita -> la_cita (modificar_cita f cita m) r = la_cita m r.
Proof. intros H. unfold la_cita. simpl. by rewrite list_lookup_total_alter_ne. Qed.

(** C1. [agendar_cita] on any appointment book.  When [strptime] rejects
    the text for "%Y-%m-%d %H:%M", the call shows the format error and
    returns nothing, the book unchanged.  When the text parses, the call
    shows the slot error, the book unchanged, exactly when some appointment
    of the collection has the same date and time and is "Programada" (one
    that is "Cancelada" there does not block); otherwise it creates a new
    appointment for the patient at that date and time, "Programada", puts
    it last in the collection and returns it.  After a successful call a
    second call with the same text gets the slot error and leaves the first
    appointment "Programada".  After cancelling the only "Programada"
    appointment at a date and time, scheduling at that date and time
    succeeds; the end-to-end scenario for "Juan Pérez" at
    "2024-06-01 10:00" is an instance. *)
Theorem agendar_cita_formato_conflicto_exito
    (self : SistemaCitas.t) (paciente : ref) (fecha_hora_str motivo : string)
    (m : Memoria) :
  let ocupada dt (s : SistemaCitas.t) (mm : Memoria) :=
    exists c, c ∈ citas s /\ Cita.fecha_hora (la_cita mm c) = dt
              /\ Cita.estado (la_cita mm c) = "Programada" in
  let conflicto texto :=
    showerror "Error" ("Horario " +:+ texto +:+ " ya ocupado.") in
  match strptime_fecha_hora fecha_hora_str with
  | None =>
      agendar_cita self paciente fecha_hora_str motivo m
      = (inl (showerror "Error de Formato" "Fecha y Hora debe ser AAAA-MM-DD HH:MM."),
         self, m)
  | Some dt =>
      (ocupada dt self m
       <-> agendar_cita self paciente fecha_hora_str motivo m
           = (inl (conflicto fecha_hora_str), self, m))
      /\ (~ ocupada dt self m
          <-> exists cita self' m',
                agendar_cita self paciente fecha_hora_str motivo m
                = (inr cita, self', m'))
      /\ (forall cita self' m',
            agendar_cita self paciente fecha_hora_str motivo m = (inr cita, self', m') ->
            las_citas m !! cita = None
            /\ las_citas m'
               = las_citas m ++
                   [Cita.mk (Cita_contador_id m + 1) paciente dt motivo "Programada"]
            /\ la_cita m' cita
               = Cita.mk (Cita_contador_id m + 1) paciente dt motivo "Programada"
            /\ citas self' = citas self ++ [cita]
            /\ observable self' = observable self
            /\ los_pacientes m' = los_pacientes m
            /\ los_tratamientos m' = los_tratamientos m
            /\ forall paciente2 motivo2,
                 agendar_cita self' paciente2 fecha_hora_str motivo2 m'
                 = (inl (conflicto fecha_hora_str), self', m')
                 /\ Cita.estado (la_cita m' cita) = "Programada")
      /\ (forall c,
            c ∈ citas self -> (c < length (las_citas m))%nat ->
            (forall c', c' ∈ citas self -> c' ≠ c ->
               ~ (Cita.fecha_hora (la_cita m c') = dt
                  /\ Cita.estado (la_cita m c') = "Programada")) ->
            exists m1 cita self' m',
              cancelar_cita self c m = (true, m1)
              /\ agendar_cita self paciente fecha_hora_str motivo m1
                 = (inr cita, self', m')
              /\ Cita.estado (la_cita m' cita) = "Programada"
              /\ Cita.estado (la_cita m' c) = "Cancelada")
  end
  /\ strptime_fecha_hora "2024-06-01 10:00" = Some (mk_datetime 2024 6 1 10 0)
  /\ escenario_reagendar
     = Some (inr 0%nat, true, inr 1%nat, "Cancelada", "Programada").
Proof.
  intros ocupada conflicto. split; [|split; by vm_compute].
  destruct (strptime_fecha_hora fecha_hora_str) as [dt|] eqn:E;
    [|unfold agendar_cita; by rewrite E].
  assert (ocupada dt self m <-> ocupado (citas self) dt m = true) as Hoc
    by (symmetry; apply ocupado_true).
  split_and!.
  - rewrite Hoc. split.
    + intros H. by apply (agendar_cita_ocupado _ _ _ _ _ dt).
    + intros H. destruct (ocupado (citas self) dt m) eqn:Eo; [done|].
      rewrite (agendar_cita_libre _ _ _ _ _ dt) in H by done. done.
  - rewrite Hoc, not_true_iff_false. split.
    + intros H. rewrite (agendar_cita_libre _ _ _ _ _ dt) by done. by eexists _, _, _.
    + intros (cita & self' & m' & H).
      destruct (ocupado (citas self) dt m) eqn:Eo; [|done].
      rewrite (agendar_cita_ocupado _ _ _ _ _ dt) in H by done. done.
  - intros cita self' m' H.
    destruct (ocupado (citas self) dt m) eqn:Eo.
    { rewrite (agendar_cita_ocupado _ _ _ _ _ dt) in H by done. done. }
    rewrite (agendar_cita_libre _ _ _ _ _ dt) in H by done.
    injection H as <- <- <-. simpl.
    assert (la_cita
              (mk_Memoria (los_pacientes m)
                 (las_citas m ++
                    [Cita.mk (Cita_contador_id m + 1) paciente dt motivo "Programada"])
                 (los_tratamientos m) (Cita_contador_id m + 1)
                 (Tratamiento_contador_id m)) (length (las_citas m))
            = Cita.mk (Cita_contador_id m + 1) paciente dt motivo "Programada") as Hc
      by (by apply (la_cita_creada m)).
    split_and!; try done.
    + apply lookup_ge_None. lia.
    + intros paciente2 motivo2. split; [|by rewrite Hc].
      apply (agendar_cita_ocupado _ _ _ _ _ dt); [done|].
      apply ocupado_true. exists (length (las_citas m)). simpl.
      split_and!; [apply elem_of_app; right; left | by rewrite Hc | by rewrite Hc].
  - intros c Hc Hlt Hsolo.
    rewrite cancelar_cita_miembro by done.
    set (m1 := modificar_cita (fun c0 => Cita.con_estado c0 "Cancelada") c m).
    assert (ocupado (citas self) dt m1 = false) as Hlibre.
    { apply ocupado_false. intros c' Hc' [H1 H2].
      destruct (decide (c' = c)) as [->|Hne].
      - unfold m1 in H2. rewrite la_cita_cancelada in H2 by done. done.
      - unfold m1 in H1, H2. rewrite la_cita_otra in H1, H2 by done.
        by apply (Hsolo c'). }
    exists m1. setoid_rewrite (agendar_cita_libre self paciente _ motivo m1 dt E Hlibre).
    eexists _, _, _. split; [reflexivity|]. split; [reflexivity|].
    assert (length (las_citas m1) = length (las_citas m)) as Hlen
      by (unfold m1; simpl; apply length_alter).
    split.
    + by rewrite (la_cita_creada m1 (Cita.mk (Cita_contador_id m1 + 1) paciente dt
                                         motivo "Programada")).
    + rewrite (la_cita_tras_crear m1 (Cita.mk (Cita_contador_id m1 + 1) paciente dt
                                        motivo "Programada")); [| done | lia].
      unfold m1. by rewrite la_cita_cancelada.
Qed.

(** C2. [cancelar_cita] returns [True] exactly when the appointment is in
    the collection, whatever its status, and then its status is
    "Cancelada" and a second cancellation returns [True] again and changes
    nothing more; an appointment that is not in the collection gives
    [False] and an unchanged store.  The call writes the status field of
    that one object only: its id, patient, date and time and reason, every
    other appointment, the patients, the treatments and the counters are
    unchanged, and the collection itself is not touched, so the appointment
    is still in it.  An appointment that was "Programada" was listed by
    [obtener_citas_por_paciente] for its patient; after the cancellation
    it is in nobody's listing, in particular not in that of its own
    patient. *)
Theorem cancelar_cita_solo_estado
    (self : SistemaCitas.t) (cita : ref) (m : Memoria)
    (Hobj : (cita < length (las_citas m))%nat) :
  exists res m',
    cancelar_cita self cita m = (res, m')
    /\ (res = true <-> cita ∈ citas self)
    /\ (cita ∈ citas self ->
          Cita.estado (la_cita m' cita) = "Cancelada"
          /\ (Cita.estado (la_cita m cita) = "Programada" ->
              cita ∈ obtener_citas_por_paciente self (Cita.paciente (la_cita m cita)) m)
          /\ cancelar_cita self cita m' = (true, m')
          /\ (cita ∉ obtener_citas_por_paciente self
                         (Cita.paciente (la_cita m' cita)) m')
          /\ forall paciente, cita ∉ obtener_citas_por_paciente self paciente m')
    /\ (cita ∉ citas self -> res = false /\ m' = m)
    /\ Cita.id_cita (la_cita m' cita) = Cita.id_cita (la_cita m cita)
    /\ Cita.paciente (la_cita m' cita) = Cita.paciente (la_cita m cita)
    /\ Cita.fecha_hora (la_cita m' cita) = Cita.fecha_hora (la_cita m cita)
    /\ Cita.motivo (la_cita m' cita) = Cita.motivo (la_cita m cita)
    /\ (forall r, r ≠ cita -> las_citas m' !! r = las_citas m !! r)
    /\ length (las_citas m') = length (las_citas m)
    /\ los_pacientes m' = los_pacientes m
    /\ los_tratamientos m' = los_tratamientos m
    /\ Cita_contador_id m' = Cita_contador_id m
    /\ Tratamiento_contador_id m' = Tratamiento_contador_id m.
Proof.
  destruct (decide (cita ∈ citas self)) as [Hin|Hout].
  - rewrite cancelar_cita_miembro by done.
    set (f := fun c => Cita.con_estado c "Cancelada").
    eexists _, _. split; [reflexivity|].
    assert (la_cita (modificar_cita f cita m) cita = f (la_cita m cita)) as Hc
      by (by apply la_cita_cancelada).
    assert (forall paciente,
              cita ∉ obtener_citas_por_paciente self paciente (modificar_cita f cita m))
      as Hfuera.
    { intros paciente. unfold obtener_citas_por_paciente.
      rewrite list_elem_of_filter, Hc. simpl. intros [[_ H] _]. done. }
    rewrite Hc. simpl. split_and!; try done.
    + intros _. split_and!; try done.
      { intros Hprog. unfold obtener_citas_por_paciente.
        by rewrite list_elem_of_filter. }
      rewrite cancelar_cita_miembro by done. f_equal.
      unfold modificar_cita. simpl. f_equal.
      rewrite list_alter_alter_eq. by apply list_alter_ext.
    + intros r Hr. by rewrite list_lookup_alter_ne.
    + apply length_alter.
  - rewrite cancelar_cita_ajena by done.
    eexists _, _. split; [reflexivity|]. split_and!; try done.
Qed.

Lemma cancelar_cita_solo_estado_witness :
  exists m',
    cancelar_cita ejemplo_citas.1 1%nat ejemplo_citas.2 = (true, m')
    /\ Cita.estado <$> las_citas m' = ["Cancelada"; "Cancelada"; "Programada"]
    /\ obtener_citas_por_paciente ejemplo_citas.1 0%nat ejemplo_citas.2 = [1; 2]%nat
    /\ obtener_citas_por_paciente ejemplo_citas.1 0%nat m' = [2]%nat.
Proof.
  destruct (cancelar_cita_solo_estado ejemplo_citas.1 1%nat ejemplo_citas.2)
    as (res & m' & Hcall & Hres & _).
  - vm_compute. lia.
  - assert (res = true) as -> by (apply Hres; vm_compute; right; left).
    exists m'. split; [exact Hcall|].
    vm_compute in Hcall. injection Hcall as <-. split_and!; by vm_compute.
Defined.

End Citas_props.

(** ** Trimming and lower case on ASCII text *)

Section Normalizacion_props.

Lemma espacio_es_blanco c : espacio c = es_blanco c.
Proof. destruct c as [[] [] [] [] [] [] [] []]; reflexivity. Qed.

Lemma lower_char_minuscula c : lower_char c = minuscula c.
Proof. destruct c as [[] [] [] [] [] [] [] []]; reflexivity. Qed.

Lemma lower_ascii_en_minusculas s : lower_ascii s = en_minusculas s.
Proof.
  induction s as [|c s IH]; simpl; [done|]. by rewrite lower_char_minuscula, IH.
Qed.

Lemma lstrip_ascii_spec s :
  exists a, s = a +:+ lstrip_ascii s /\ solo_blancos a = true
    /\ forall c, primero (lstrip_ascii s) = Some c -> es_blanco c = false.
Proof.
  induction s as [|c s IH]; simpl.
  - by exists "".
  - destruct (espacio c) eqn:E.
    + destruct IH as (a & Hs & Ha & Hp). exists (String c a). split_and!.
      * change (String c s = String c (a +:+ lstrip_ascii s)). by rewrite <- Hs.
      * simpl. by rewrite <- espacio_es_blanco, E.
      * done.
    + exists "". split_and!; [done | done |].
      intros x [= <-]. by rewrite <- espacio_es_blanco.
Qed.

Lemma rstrip_ascii_spec s :
  exists b, s = rstrip_ascii s +:+ b /\ solo_blancos b = true
    /\ forall c, ultimo (rstrip_ascii s) = Some c -> es_blanco c = false.
Proof.
  induction s as [|c s IH]; simpl.
  - by exists "".
  - destruct IH as (b & Hs & Hb & Hu).
    destruct (rstrip_ascii s) as [|x r] eqn:Er.
    + destruct (espacio c) eqn:E.
      * exists (String c s). split_and!; [done | | done].
        simpl. rewrite <- espacio_es_blanco, E. simpl. by rewrite Hs.
      * exists b. split_and!; [| done |].
        -- change (String c s = String c ("" +:+ b)). by rewrite <- Hs.
        -- intros y [= <-]. by rewrite <- espacio_es_blanco.
    + exists b. split_and!; [| done | done].
      change (String c s = String c (String x r +:+ b)). by rewrite <- Hs.
Qed.

Lemma primero_prefijo r b c : primero r = Some c -> primero (r +:+ b) = Some c.
Proof. by destruct r. Qed.

(** [strip_ascii] removes a run of white space at each end and leaves a
    trimmed text. *)
Lemma strip_ascii_spec s :
  exists a b, s = a +:+ strip_ascii s +:+ b
    /\ solo_blancos a = true /\ solo_blancos b = true
    /\ recortado (strip_ascii s).
Proof.
  unfold strip_ascii.
  destruct (lstrip_ascii_spec s) as (a & Hs & Ha & Hp).
  destruct (rstrip_ascii_spec (lstrip_ascii s)) as (b & Ht & Hb & Hu).
  exists a, b. split_and!; [by rewrite <- Ht | done | done |].
  split; [|done]. intros c Hc. apply Hp. rewrite Ht. by apply primero_prefijo.
Qed.

Lemma es_ascii_app a b : es_ascii (a +:+ b) = es_ascii a && es_ascii b.
Proof.
  induction a as [|c a IH]; [done|].
  change (es_ascii (String c (a +:+ b)) = es_ascii (String c a) && es_ascii b).
  simpl. by rewrite IH, andb_assoc.
Qed.

Lemma es_ascii_strip_ascii s : es_ascii s = true -> es_ascii (strip_ascii s) = true.
Proof.
  destruct (strip_ascii_spec s) as (a & b & Hs & _). intros Hascii.
  rewrite Hs, !es_ascii_app in Hascii.
  apply andb_true_iff in Hascii as [_ Hascii].
  by apply andb_true_iff in Hascii as [Hascii _].
Qed.

Context `{unicode : Unicode}.

(** On an ASCII description the key is the ASCII one. *)
Lemma lower_strip_de_ascii s :
  es_ascii s = true -> lower (strip s) = lower_ascii (strip_ascii s).
Proof.
  intros Hs. rewrite (strip_de_ascii s Hs).
  by rewrite lower_de_ascii by (by apply es_ascii_strip_ascii).
Qed.

Lemma contar_de_ascii registro m :
  Forall (fun t => es_ascii (Tratamiento.descripcion (el_tratamiento m t)) = true)
    registro ->
  SistemaHistorialTratamientos.contar registro m
  = SistemaHistorialTratamientos.contar (H := solo_ascii) registro m.
Proof.
  unfold SistemaHistorialTratamientos.contar. generalize (@nil (string * Z)).
  induction registro as [|t registro IH]; intros acc Hreg; simpl; [done|].
  apply Forall_cons in Hreg as [Ht Hreg].
  rewrite (lower_strip_de_ascii _ Ht). by apply IH.
Qed.

Lemma mas_comunes_de_ascii self top_n m :
  Forall (fun t => es_ascii (Tratamiento.descripcion (el_tratamiento m t)) = true)
    (SistemaHistorialTratamientos.registro_tratamientos self) ->
  SistemaHistorialTratamientos.obtener_tratamientos_mas_comunes self top_n m
  = SistemaHistorialTratamientos.obtener_tratamientos_mas_comunes (H := solo_ascii)
      self top_n m.
Proof.
  intros Hreg. unfold SistemaHistorialTratamientos.obtener_tratamientos_mas_comunes.
  by rewrite (contar_de_ascii _ _ Hreg).
Qed.

End Normalizacion_props.

(** ** SistemaHistorialTratamientos *)

Section Tratamientos_props.
Import SistemaHistorialTratamientos.
Context `{unicode : Unicode}.

Lemma dict_get_set d k v k' def :
  dict_get (dict_set d k v) k' def = if decide (k = k') then v else dict_get d k' def.
Proof.
  induction d as [|[k0 v0] d IH]; simpl.
  - repeat case_decide; congruence.
  - destruct (decide (k0 = k)) as [->|Hne]; simpl.
    + repeat case_decide; congruence.
    + rewrite IH. repeat case_decide; congruence.
Qed.

Lemma dict_set_claves d k v :
  (dict_set d k v).*1 = if decide (k ∈ d.*1) then d.*1 else d.*1 ++ [k].
Proof.
  induction d as [|[k0 v0] d IH]; csimpl.
  - done.
  - destruct (decide (k0 = k)) as [->|Hne]; csimpl.
    + rewrite decide_True by left. done.
    + rewrite IH. destruct (decide (k ∈ d.*1)) as [Hin|Hout].
      * rewrite decide_True by (by right). done.
      * rewrite decide_False; [done|].
        rewrite not_elem_of_cons. split; [congruence | done].
Qed.

Lemma dict_get_ausente (d : dict) k def : k ∉ d.*1 -> dict_get d k def = def.
Proof.
  induction d as [|[k0 v0] d IH]; simpl; [done|].
  rewrite not_elem_of_cons. intros [H1 H2]. rewrite decide_False by congruence. auto.
Qed.

Lemma dict_get_presente (d : dict) k v def :
  NoDup d.*1 -> (k, v) ∈ d -> dict_get d k def = v.
Proof.
  induction d as [|[k0 v0] d IH]; simpl; intros Hnd Hin.
  - by apply elem_of_nil in Hin.
  - apply NoDup_cons in Hnd as [Hk0 Hnd].
    apply elem_of_cons in Hin as [[= -> ->]|Hin].
    + by rewrite decide_True.
    + rewrite decide_False; [by apply IH|].
      intros ->. apply Hk0. apply list_elem_of_fmap. by exists (k, v).
Qed.

Lemma dict_por_claves (d : dict) :
  NoDup d.*1 -> d = (fun k => (k, dict_get d k 0)) <$> d.*1.
Proof.
  induction d as [|[k0 v0] d IH]; simpl; intros Hnd; [done|].
  apply NoDup_cons in Hnd as [Hk0 Hnd].
  rewrite decide_True by done. f_equal.
  rewrite (IH Hnd) at 1. apply list_fmap_ext. intros i k Hk.
  apply list_elem_of_lookup_2 in Hk.
  rewrite decide_False; [done|]. intros ->. done.
Qed.

Lemma primeras_apariciones_elem_of l k : k ∈ primeras_apariciones l <-> k ∈ l.
Proof.
  induction l as [|d l IH]; simpl; [done|].
  rewrite !elem_of_cons, list_elem_of_filter, IH. split.
  - intros [->|[_ H]]; [by left | by right].
  - intros [->|H]; [by left|].
    destruct (decide (k = d)) as [->|Hne]; [by left | by right].
Qed.

Lemma primeras_apariciones_NoDup l : NoDup (primeras_apariciones l).
Proof.
  induction l as [|d l IH]; simpl; [apply NoDup_nil_2|].
  apply NoDup_cons. split; [|by apply NoDup_filter].
  rewrite list_elem_of_filter. intros [H _]. done.
Qed.

Lemma primeras_apariciones_snoc l d :
  primeras_apariciones (l ++ [d])
  = if decide (d ∈ l) then primeras_apariciones l else primeras_apariciones l ++ [d].
Proof.
  induction l as [|x l IH]; simpl.
  - done.
  - rewrite IH. destruct (decide (d ∈ l)) as [Hin|Hout].
    + rewrite decide_True by (by right). done.
    + destruct (decide (d = x)) as [->|Hne].
      * rewrite decide_True by left. rewrite filter_app.
        rewrite (filter_cons_False _ x) by (intros H; by apply H).
        by rewrite app_nil_r.
      * rewrite decide_False.
        2:{ rewrite not_elem_of_cons. done. }
        rewrite filter_app. by rewrite filter_cons_True.
Qed.

Lemma ocurrencias_snoc k l d :
  ocurrencias k (l ++ [d]) = if decide (d = k) then ocurrencias k l + 1 else ocurrencias k l.
Proof.
  unfold ocurrencias. rewrite filter_app, length_app.
  case_decide as H.
  - rewrite filter_cons_True by done. simpl. lia.
  - rewrite filter_cons_False by done. simpl. lia.
Qed.

Lemma contar_snoc registro tratamiento m :
  contar (registro ++ [tratamiento]) m
  = dict_set (contar registro m) (clave m tratamiento)
      (dict_get (contar registro m) (clave m tratamiento) 0 + 1).
Proof. unfold contar. by rewrite foldl_app. Qed.

Lemma contar_claves registro m :
  (contar registro m).*1 = primeras_apariciones (clave m <$> registro).
Proof.
  induction registro as [|t registro IH] using rev_ind; [done|].
  rewrite contar_snoc, dict_set_claves, fmap_app. csimpl.
  rewrite primeras_apariciones_snoc, IH. destruct (decide (clave m t ∈ clave m <$> registro)) as [Hin|Hout].
  - rewrite decide_True by (by apply primeras_apariciones_elem_of). done.
  - rewrite decide_False; [done|]. by rewrite primeras_apariciones_elem_of.
Qed.

Lemma contar_get registro m k :
  dict_get (contar registro m) k 0 = ocurrencias k (clave m <$> registro).
Proof.
  induction registro as [|t registro IH] using rev_ind; [done|].
  rewrite contar_snoc, dict_get_set, fmap_app. csimpl. rewrite ocurrencias_snoc.
  case_decide as H; [subst; by rewrite IH | done].
Qed.

Lemma contar_NoDup registro m : NoDup (contar registro m).*1.
Proof. rewrite contar_claves. apply primeras_apariciones_NoDup. Qed.

(** The loop computes the tally of the specification. *)
Lemma contar_grupos_esperados registro m :
  contar registro m = grupos_esperados (clave m <$> registro).
Proof.
  rewrite (dict_por_claves (contar registro m)) by apply contar_NoDup.
  unfold grupos_esperados. rewrite contar_claves.
  apply list_fmap_ext. intros _ k _. by rewrite contar_get.
Qed.

Lemma insertar_Permutation x l : insertar x l ≡ₚ x :: l.
Proof.
  induction l as [|y l IH]; simpl; [done|].
  destruct (y.2 <=? x.2); [done|]. rewrite IH. apply Permutation_swap.
Qed.

Lemma sorted_reverse_Permutation l : sorted_reverse l ≡ₚ l.
Proof.
  induction l as [|x l IH]; simpl; [done|].
  rewrite insertar_Permutation. by rewrite IH.
Qed.

Lemma insertar_ordenada x l :
  StronglySorted no_creciente l -> StronglySorted no_creciente (insertar x l).
Proof.
  induction l as [|y l IH]; simpl; intros Hs.
  - repeat constructor.
  - apply StronglySorted_inv in Hs as [Hs Hy].
    destruct (y.2 <=? x.2) eqn:E.
    + apply Z.leb_le in E. constructor; [by constructor|].
      constructor; [done|]. eapply Forall_impl; [exact Hy|].
      unfold no_creciente. simpl. intros z Hz. lia.
    + apply Z.leb_gt in E. constructor; [by apply IH|].
      rewrite insertar_Permutation. constructor; [|done].
      unfold no_creciente. lia.
Qed.

Lemma sorted_reverse_ordenada l : StronglySorted no_creciente (sorted_reverse l).
Proof.
  induction l as [|x l IH]; simpl; [constructor | by apply insertar_ordenada].
Qed.

Lemma insertar_estable x l v :
  filter (fun y : string * Z => y.2 = v) (insertar x l)
  = filter (fun y : string * Z => y.2 = v) (x :: l).
Proof.
  induction l as [|y l IH]; simpl; [done|].
  destruct (y.2 <=? x.2) eqn:E; [done|]. apply Z.leb_gt in E.
  rewrite (filter_cons _ y (insertar x l)), IH.
  rewrite !(filter_cons _ x), !(filter_cons _ y).
  repeat case_decide; try done; lia.
Qed.

Lemma sorted_reverse_estable l v :
  filter (fun y : string * Z => y.2 = v) (sorted_reverse l)
  = filter (fun y : string * Z => y.2 = v) l.
Proof.
  induction l as [|x l IH]; simpl; [done|].
  rewrite insertar_estable, !(filter_cons _ x), IH. done.
Qed.

Lemma slice_hasta_no_negativo {A} (n : Z) (l : list A) :
  0 <= n -> slice_hasta n l = take (Z.to_nat n) l.
Proof. intros H. unfold slice_hasta. by rewrite (proj2 (Z.ltb_ge n 0)). Qed.

Lemma mas_comunes_ordenados self top_n m :
  obtener_tratamientos_mas_comunes self top_n m
  = slice_hasta top_n (sorted_reverse (contar (registro_tratamientos self) m)).
Proof.
  unfold obtener_tratamientos_mas_comunes.
  destruct (registro_tratamientos self) as [|t l] eqn:E; [|done].
  unfold slice_hasta. simpl. destruct (top_n <? 0); by rewrite take_nil.
Qed.

(** C5, for a [top_n] that is not negative.  The result of
    [obtener_tratamientos_mas_comunes] is the first [top_n] entries of a
    list that has exactly the groups of the ledger (one per key, with the
    number of treatments of that key, the key of a treatment being
    [lower] of [strip] of its description), is in decreasing order of the
    counts, and keeps groups of equal count in the order in which the scan
    first met them.  On an ASCII description the key is the description
    without the white space at its two ends, every capital letter replaced
    by its small letter.  The result is the empty mapping when the ledger
    is empty, and for the descriptions "Cleaning", "cleaning ", "Filling"
    and [top_n] = 2 it is "cleaning": 2, "filling": 1, in that order. *)
Theorem tratamientos_mas_comunes_agrupa_ordena_trunca
    (self : SistemaHistorialTratamientos.t) (top_n : Z) (m : Memoria)
    (Htop : 0 <= top_n) :
  let claves := clave m <$> registro_tratamientos self in
  (exists ordenados,
     ordenados ≡ₚ grupos_esperados claves
     /\ StronglySorted no_creciente ordenados
     /\ (forall v, filter (fun g : string * Z => g.2 = v) ordenados
                   = filter (fun g : string * Z => g.2 = v) (grupos_esperados claves))
     /\ obtener_tratamientos_mas_comunes self top_n m = take (Z.to_nat top_n) ordenados)
  /\ (registro_tratamientos self = [] ->
      obtener_tratamientos_mas_comunes self top_n m = [])
  /\ (forall t,
        clave m t = lower (strip (Tratamiento.descripcion (el_tratamiento m t)))
        /\ (es_ascii (Tratamiento.descripcion (el_tratamiento m t)) = true ->
            exists a medio b,
              Tratamiento.descripcion (el_tratamiento m t) = a +:+ medio +:+ b
              /\ solo_blancos a = true /\ solo_blancos b = true
              /\ recortado medio
              /\ clave m t = en_minusculas medio))
  /\ (Tratamiento.descripcion <$> los_tratamientos ejemplo_historial.2
      = ["Cleaning"; "cleaning "; "Filling"]
      /\ obtener_tratamientos_mas_comunes ejemplo_historial.1 2 ejemplo_historial.2
         = [("cleaning", 2); ("filling", 1)]).
Proof.
  intros claves. split_and!.
  - exists (sorted_reverse (contar (registro_tratamientos self) m)).
    unfold claves. rewrite <- contar_grupos_esperados. split_and!.
    + apply sorted_reverse_Permutation.
    + apply sorted_reverse_ordenada.
    + apply sorted_reverse_estable.
    + rewrite mas_comunes_ordenados. by apply slice_hasta_no_negativo.
  - intros Hvacio. unfold obtener_tratamientos_mas_comunes. by rewrite Hvacio.
  - intros t. split; [done|]. intros Hascii.
    destruct (strip_ascii_spec (Tratamiento.descripcion (el_tratamiento m t)))
      as (a & b & Hs & Ha & Hb & Hr).
    exists a, (strip_ascii (Tratamiento.descripcion (el_tratamiento m t))), b.
    split_and!; try done.
    unfold clave. by rewrite lower_strip_de_ascii, lower_ascii_en_minusculas.
  - by vm_compute.
  - rewrite mas_comunes_de_ascii; [by vm_compute|].
    vm_compute. by repeat constructor.
Qed.

Lemma dict_get_Permutation (d d' : dict) k def :
  NoDup d.*1 -> d ≡ₚ d' -> dict_get d k def = dict_get d' k def.
Proof.
  intros Hnd Hp.
  assert (NoDup d'.*1) as Hnd' by (by rewrite <- Hp).
  destruct (decide (k ∈ d.*1)) as [Hin|Hout].
  - apply list_elem_of_fmap in Hin as ([k' v] & -> & Hkv). simpl.
    rewrite (dict_get_presente d k' v) by done.
    rewrite (dict_get_presente d' k' v); [done | done | by rewrite <- Hp].
  - rewrite !dict_get_ausente; [done | by rewrite <- Hp | done].
Qed.

Lemma primeras_apariciones_length l :
  (length (primeras_apariciones l) <= length l)%nat.
Proof.
  induction l as [|d l IH]; simpl; [done|].
  pose proof (length_filter (fun k => k ≠ d) (primeras_apariciones l)). lia.
Qed.

Lemma contar_length registro m : (length (contar registro m) <= length registro)%nat.
Proof.
  rewrite <- (length_fmap fst), contar_claves.
  etrans; [apply primeras_apariciones_length|]. by rewrite length_fmap.
Qed.

(** With room for every group, the result gives each key its count. *)
Lemma mas_comunes_get self top_n m k :
  Z.of_nat (length (registro_tratamientos self)) <= top_n ->
  dict_get (obtener_tratamientos_mas_comunes self top_n m) k 0
  = ocurrencias k (clave m <$> registro_tratamientos self).
Proof.
  intros Hn. rewrite mas_comunes_ordenados, slice_hasta_no_negativo by lia.
  rewrite take_ge.
  2:{ rewrite sorted_reverse_Permutation.
      pose proof (contar_length (registro_tratamientos self) m). lia. }
  rewrite <- contar_get. symmetry. apply dict_get_Permutation.
  - apply contar_NoDup.
  - symmetry. apply sorted_reverse_Permutation.
Qed.

Lemma registrar_tratamiento_valida self paciente fecha_str descripcion odontologo m dt :
  strptime_fecha fecha_str = Some dt ->
  registrar_tratamiento self paciente fecha_str descripcion odontologo m
  = (inr (length (los_tratamientos m)),
     mk (registro_tratamientos self ++ [length (los_tratamientos m)]),
     mk_Memoria
       (alter (fun p => Paciente.agregar_tratamiento p (length (los_tratamientos m)))
          paciente (los_pacientes m))
       (las_citas m)
       (los_tratamientos m ++
          [Tratamiento.mk (Tratamiento_contador_id m + 1) paciente dt descripcion
             odontologo])
       (Cita_contador_id m) (Tratamiento_contador_id m + 1)).
Proof. intros H. unfold registrar_tratamiento. by rewrite H. Qed.

(** C6. A call of [registrar_tratamiento] whose date parses creates one
    treatment, whose id is the class counter plus one, and in that call
    puts it last both in the history of the patient and in the ledger;
    [obtener_tratamientos_por_paciente] then gives the history the patient
    had, in order, followed by the new treatment, and the tally counts one
    more treatment for the trimmed, lower-case description (and the same
    as before for every other key), which is what
    [obtener_tratamientos_mas_comunes] reports for that key when [top_n]
    leaves room for every group.  A call whose date [strptime] rejects
    shows the format error, returns nothing and changes neither the
    ledger nor any history. *)
Theorem registrar_tratamiento_historial_y_registro
    (self : SistemaHistorialTratamientos.t) (paciente : ref)
    (fecha_str descripcion odontologo : string) (m : Memoria)
    (Hpac : (paciente < length (los_pacientes m))%nat)
    (Hreg : forall r, r ∈ registro_tratamientos self ->
              (r < length (los_tratamientos m))%nat) :
  match strptime_fecha fecha_str with
  | Some dt =>
      exists tratamiento self' m',
        registrar_tratamiento self paciente fecha_str descripcion odontologo m
        = (inr tratamiento, self', m')
        /\ los_tratamientos m !! tratamiento = None
        /\ los_tratamientos m'
           = los_tratamientos m ++
               [Tratamiento.mk (Tratamiento_contador_id m + 1) paciente dt
                  descripcion odontologo]
        /\ el_tratamiento m' tratamiento
           = Tratamiento.mk (Tratamiento_contador_id m + 1) paciente dt
               descripcion odontologo
        /\ Tratamiento_contador_id m' = Tratamiento_contador_id m + 1
        /\ registro_tratamientos self' = registro_tratamientos self ++ [tratamiento]
        /\ obtener_tratamientos_por_paciente paciente m'
           = obtener_tratamientos_por_paciente paciente m ++ [tratamiento]
        /\ (forall p, p ≠ paciente ->
              obtener_tratamientos_por_paciente p m'
              = obtener_tratamientos_por_paciente p m)
        /\ (forall k,
              dict_get (contar (registro_tratamientos self') m') k 0
              = dict_get (contar (registro_tratamientos self) m) k 0
                + (if decide (k = lower (strip descripcion)) then 1 else 0))
        /\ (forall top_n,
              Z.of_nat (length (registro_tratamientos self')) <= top_n ->
              dict_get (obtener_tratamientos_mas_comunes self' top_n m')
                (lower (strip descripcion)) 0
              = dict_get (obtener_tratamientos_mas_comunes self top_n m)
                  (lower (strip descripcion)) 0 + 1)
  | None =>
      registrar_tratamiento self paciente fecha_str descripcion odontologo m
      = (inl (showerror "Error de Formato" "Fecha de Tratamiento debe ser AAAA-MM-DD."),
         self, m)
  end.
Proof.
  destruct (strptime_fecha fecha_str) as [dt|] eqn:E;
    [|unfold registrar_tratamiento; by rewrite E].
  rewrite (registrar_tratamiento_valida _ _ _ _ _ _ dt) by done.
  set (t := length (los_tratamientos m)).
  set (nuevo := Tratamiento.mk (Tratamiento_contador_id m + 1) paciente dt
                  descripcion odontologo).
  set (m' := mk_Memoria _ _ _ _ _).
  eexists _, _, _. split; [reflexivity|]. simpl.
  assert (el_tratamiento m' t = nuevo) as Ht.
  { unfold el_tratamiento, m'. simpl. rewrite lookup_total_app_r by (unfold t; lia).
    unfold t. by rewrite Nat.sub_diag. }
  assert (clave m' <$> registro_tratamientos self
          = clave m <$> registro_tratamientos self) as Hclaves.
  { apply list_fmap_ext. intros i r Hr. apply list_elem_of_lookup_2, Hreg in Hr.
    unfold clave, el_tratamiento, m'. simpl. by rewrite lookup_total_app_l. }
  assert (clave m' t = lower (strip descripcion)) as Hclave
    by (unfold clave; by rewrite Ht).
  assert (forall k,
            ocurrencias k (clave m' <$> registro_tratamientos self ++ [t])
            = ocurrencias k (clave m <$> registro_tratamientos self)
              + (if decide (k = lower (strip descripcion)) then 1 else 0)) as Hoc.
  { intros k. rewrite fmap_app. csimpl. rewrite ocurrencias_snoc, Hclaves, Hclave.
    repeat case_decide; try congruence; lia. }
  split_and!; try done.
  - apply lookup_ge_None. unfold t. lia.
  - unfold obtener_tratamientos_por_paciente, el_paciente, m'. simpl.
    by rewrite list_lookup_total_alter_eq.
  - intros p Hp. unfold obtener_tratamientos_por_paciente, el_paciente, m'. simpl.
    by rewrite list_lookup_total_alter_ne.
  - intros k. by rewrite !contar_get, Hoc.
  - intros top_n Hn. rewrite length_app in Hn. simpl in Hn.
    rewrite !mas_comunes_get; simpl; [| lia | rewrite length_app; simpl; lia].
    rewrite Hoc. by rewrite decide_True.
Qed.

End Tratamientos_props.

Section Tratamientos_ejemplos.
Import SistemaHistorialTratamientos.

(** C5 as it is stated, for every [top_n], fails at [top_n] = -1 on the
    ledger "Cleaning", "cleaning ", "Filling": the result is not the first
    -1 entries of the ranking, which would be none, but the ranking
    without its last entry. *)
Lemma tratamientos_mas_comunes_top_n_menos_uno :
  obtener_tratamientos_mas_comunes ejemplo_historial.1 (-1) ejemplo_historial.2
  = [("cleaning", 2)]
  /\ ~ (let claves :=
          clave ejemplo_historial.2 <$> registro_tratamientos ejemplo_historial.1 in
        exists ordenados,
          ordenados ≡ₚ grupos_esperados claves
          /\ StronglySorted no_creciente ordenados
          /\ (forall v, filter (fun g : string * Z => g.2 = v) ordenados
                        = filter (fun g : string * Z => g.2 = v)
                            (grupos_esperados claves))
          /\ obtener_tratamientos_mas_comunes ejemplo_historial.1 (-1)
               ejemplo_historial.2
             = take (Z.to_nat (-1)) ordenados).
Proof.
  split; [by vm_compute|].
  intros (ordenados & _ & _ & _ & Hres). vm_compute in Hres. discriminate.
Qed.

Lemma tratamientos_mas_comunes_agrupa_ordena_trunca_witness :
  exists ordenados,
    ordenados ≡ₚ [("cleaning", 2); ("filling", 1)]
    /\ obtener_tratamientos_mas_comunes ejemplo_historial.1 1 ejemplo_historial.2
       = take 1 ordenados.
Proof.
  destruct (tratamientos_mas_comunes_agrupa_ordena_trunca
              ejemplo_historial.1 1 ejemplo_historial.2) as [(o & H1 & _ & _ & H4) _].
  - lia.
  - exists o. split; [exact H1 | exact H4].
Defined.

Lemma registrar_tratamiento_historial_y_registro_witness :
  exists tratamiento self' m',
    registrar_tratamiento ejemplo_historial.1 0%nat "2024-06-04" " FILLING" "Dr. Sonrisas"
      ejemplo_historial.2 = (inr tratamiento, self', m')
    /\ obtener_tratamientos_por_paciente 0%nat m' = [0; 1; 2; 3]%nat
    /\ obtener_tratamientos_mas_comunes self' 5 m' = [("cleaning", 2); ("filling", 2)].
Proof.
  pose proof (registrar_tratamiento_historial_y_registro
                ejemplo_historial.1 0%nat "2024-06-04" " FILLING" "Dr. Sonrisas"
                ejemplo_historial.2) as H.
  assert (strptime_fecha "2024-06-04" = Some (mk_datetime 2024 6 4 0 0)) as E
    by (by vm_compute).
  rewrite E in H.
  destruct H as (t & self' & m' & Hcall & _).
  - vm_compute. lia.
  - intros r Hr. vm_compute in Hr. vm_compute.
    apply elem_of_cons in Hr as [->|Hr]; [lia|].
    apply elem_of_cons in Hr as [->|Hr]; [lia|].
    apply list_elem_of_singleton in Hr as ->. lia.
  - exists t, self', m'. split; [exact Hcall|].
    vm_compute in Hcall. injection Hcall as <- <- <-. split; by vm_compute.
Defined.

End Tratamientos_ejemplos.

(** ** ReporteCitasPorDia *)

Section Reporte_props.
Import ReporteCitasPorDia.

Lemma append_assoc (a b c : string) : (a +:+ b) +:+ c = a +:+ (b +:+ c).
Proof.
  induction a as [|x a IH]; [done|].
  change (String x ((a +:+ b) +:+ c) = String x (a +:+ (b +:+ c))). by rewrite IH.
Qed.

Lemma append_vacio (a : string) : a +:+ "" = a.
Proof.
  induction a as [|x a IH]; [done|].
  change (String x (a +:+ "") = String x a). by rewrite IH.
Qed.

(** The loop appends the lines of the appointments of the day, in
    collection order, and counts them. *)
Lemma recorrer_filter l dia m contenido contador :
  recorrer l dia m (contenido, contador)
  = (contenido
     +:+ foldr String.append ""
           (linea m <$> filter (fun c => date (Cita.fecha_hora (la_cita m c)) = dia) l),
     contador
     + Z.of_nat (length (filter (fun c => date (Cita.fecha_hora (la_cita m c)) = dia) l))).
Proof.
  unfold recorrer. revert contenido contador.
  induction l as [|c l IH]; intros contenido contador; simpl.
  - rewrite append_vacio. f_equal. lia.
  - rewrite filter_cons. case_decide as Hd.
    + rewrite IH. csimpl. rewrite append_assoc. f_equal. lia.
    + by rewrite IH.
Qed.

Lemma la_cita_con_estado m c e r :
  let m' := modificar_cita (fun x => Cita.con_estado x e) c m in
  Cita.paciente (la_cita m' r) = Cita.paciente (la_cita m r)
  /\ Cita.fecha_hora (la_cita m' r) = Cita.fecha_hora (la_cita m r)
  /\ Cita.motivo (la_cita m' r) = Cita.motivo (la_cita m r).
Proof.
  unfold la_cita. simpl. rewrite list_lookup_total_alter.
  case_decide as Hd; [destruct Hd as [-> _]|]; done.
Qed.

Lemma linea_con_estado m c e r :
  linea (modificar_cita (fun x => Cita.con_estado x e) c m) r = linea m r.
Proof.
  unfold linea. destruct (la_cita_con_estado m c e r) as (-> & -> & ->). done.
Qed.

Lemma recorrer_con_estado l dia m c e inicio :
  recorrer l dia (modificar_cita (fun x => Cita.con_estado x e) c m) inicio
  = recorrer l dia m inicio.
Proof.
  unfold recorrer. revert inicio.
  induction l as [|r l IH]; intros [contenido contador]; simpl; [done|].
  destruct (la_cita_con_estado m c e r) as (_ & -> & _).
  by rewrite linea_con_estado, !IH.
Qed.

(** C9. The report for a date that parses is the header with the text
    entered, then one line for each appointment of the collection whose
    calendar day is that date, in collection order, then the notice of no
    appointments when there is none, then the total.  Each line names the
    patient, the time as HH:MM and the reason.  The status plays no part:
    the report is the same whatever status any appointment is given, so
    cancelled appointments are listed with the scheduled ones.  With no
    text (dialog dismissed or empty) the report is the cancellation text,
    and with a text [strptime] rejects it is the invalid-format text;
    [generar] is a function of the collections to a text, which raises
    nothing and writes to no collection. *)
Theorem reporte_citas_por_dia_sin_filtrar_estado
    (sistema_citas : SistemaCitas.t) (fecha_str : option string) (m : Memoria) :
  match fecha_str with
  | None => generar sistema_citas fecha_str m = "Generación de reporte cancelada."
  | Some s =>
      if decide (s = "")
      then generar sistema_citas fecha_str m = "Generación de reporte cancelada."
      else
        match strptime_fecha s with
        | None =>
            generar sistema_citas fecha_str m
            = "Formato de fecha inválido. Use AAAA-MM-DD."
        | Some dt =>
            let del_dia := citas_del_dia sistema_citas (date dt) m in
            generar sistema_citas fecha_str m
            = "Citas Programadas para el " +:+ s +:+ ":" +:+ nl
              +:+ "--------------------------------------" +:+ nl
              +:+ foldr String.append "" (linea m <$> del_dia)
              +:+ (if decide (del_dia = [])
                   then "No hay citas programadas para esta fecha." +:+ nl
                   else "")
              +:+ nl +:+ "Total de citas: " +:+ str_Z (Z.of_nat (length del_dia))
              +:+ nl
            /\ forall cita,
                 cita ∈ del_dia
                 <-> cita ∈ SistemaCitas.citas sistema_citas
                     /\ date (Cita.fecha_hora (la_cita m cita)) = date dt
        end
  end
  /\ (forall cita e,
        generar sistema_citas fecha_str
          (modificar_cita (fun c => Cita.con_estado c e) cita m)
        = generar sistema_citas fecha_str m)
  /\ (forall cita,
        linea m cita
        = "- " +:+ Paciente.nombre (el_paciente m (Cita.paciente (la_cita m cita)))
          +:+ " a las " +:+ dos_digitos (hour (Cita.fecha_hora (la_cita m cita)))
          +:+ ":" +:+ dos_digitos (minute (Cita.fecha_hora (la_cita m cita)))
          +:+ " (" +:+ Cita.motivo (la_cita m cita) +:+ ")" +:+ nl)
  /\ (Cita.estado <$> las_citas ejemplo_citas.2
      = ["Cancelada"; "Programada"; "Programada"]
      /\ generar ejemplo_citas.1 (Some "2024-06-01") ejemplo_citas.2
         = "Citas Programadas para el 2024-06-01:" +:+ nl
           +:+ "--------------------------------------" +:+ nl
           +:+ "- Juan Pérez a las 10:00 (Checkup)" +:+ nl
           +:+ "- Juan Pérez a las 09:30 (Limpieza)" +:+ nl
           +:+ nl +:+ "Total de citas: 2" +:+ nl
      /\ generar ejemplo_citas.1 (Some "01/06/2024") ejemplo_citas.2
         = "Formato de fecha inválido. Use AAAA-MM-DD.").
Proof.
  split_and!.
  - destruct fecha_str as [s|]; [|done].
    case_decide as Hs; [by subst|].
    destruct s as [|a s]; [done|]. clear Hs. unfold generar.
    destruct (strptime_fecha (String a s)) as [dt|]; [|done].
    split; [|intros cita; unfold citas_del_dia; rewrite list_elem_of_filter; tauto].
    rewrite recorrer_filter. fold (citas_del_dia sistema_citas (date dt) m).
    destruct (citas_del_dia sistema_citas (date dt) m) as [|c l] eqn:E.
    + rewrite decide_True by done. simpl length. simpl Z.of_nat.
      change (0 + 0 =? 0) with true. cbv iota. csimpl.
      by rewrite !append_assoc.
    + rewrite decide_False by done.
      replace (0 + Z.of_nat (length (c :: l)) =? 0) with false
        by (symmetry; apply Z.eqb_neq; simpl length; lia).
      cbv iota. rewrite Z.add_0_l. by rewrite !append_assoc.
  - intros cita e. unfold generar.
    destruct fecha_str as [[|a s]|]; try done.
    destruct (strptime_fecha (String a s)) as [dt|]; [|done].
    by rewrite recorrer_con_estado.
  - intros cita. unfold linea, strftime_HM. by rewrite !append_assoc.
  - by vm_compute.
  - by vm_compute.
  - by vm_compute.
Qed.

End Reporte_props.

(** ** The service layer as a whole *)

Section Mundo_props.
Import SistemaGestionPacientes SistemaCitas SistemaHistorialTratamientos.

(** What each call does to the world, case by case. *)
Lemma aplicar_registrar_paciente w n t d f h :
  aplicar w (Registrar_paciente n t d f h)
  = match strptime_fecha f with
    | None => w
    | Some _ =>
        mk_Mundo
          (SistemaGestionPacientes.mk
             (pacientes (sistema_pac w) ++ [length (los_pacientes (memoria w))])
             (_siguiente_id_paciente (sistema_pac w) + 1))
          (sistema_cit w) (sistema_trat w)
          (mk_Memoria
             (los_pacientes (memoria w) ++
                [Paciente.mk (_siguiente_id_paciente (sistema_pac w)) n t d f h []])
             (las_citas (memoria w)) (los_tratamientos (memoria w))
             (Cita_contador_id (memoria w)) (Tratamiento_contador_id (memoria w)))
    end.
Proof.
  simpl. unfold registrar_paciente. destruct (strptime_fecha f); [done | by destruct w].
Qed.

Lemma aplicar_actualizar_paciente w i n t d f h :
  aplicar w (Actualizar_paciente i n t d f h)
  = match buscar_paciente_por_id (sistema_pac w) i (memoria w) with
    | None => w
    | Some p =>
        mk_Mundo (sistema_pac w) (sistema_cit w) (sistema_trat w)
          (modificar_paciente
             (fun q => Paciente.actualizar_info q n t d f h) p (memoria w))
    end.
Proof.
  simpl. unfold actualizar_paciente.
  destruct (buscar_paciente_por_id _ _ _); [done | by destruct w].
Qed.

Lemma aplicar_agendar_cita w p f mo :
  aplicar w (Agendar_cita p f mo)
  = match strptime_fecha_hora f with
    | None => w
    | Some dt =>
        if ocupado (citas (sistema_cit w)) dt (memoria w) then w
        else
          mk_Mundo (sistema_pac w)
            (SistemaCitas.mk (observable (sistema_cit w))
               (citas (sistema_cit w) ++ [length (las_citas (memoria w))])
               (disponibilidad (sistema_cit w)))
            (sistema_trat w)
            (mk_Memoria (los_pacientes (memoria w))
               (las_citas (memoria w) ++
                  [Cita.mk (Cita_contador_id (memoria w) + 1) p dt mo "Programada"])
               (los_tratamientos (memoria w))
               (Cita_contador_id (memoria w) + 1)
               (Tratamiento_contador_id (memoria w)))
    end.
Proof.
  simpl. unfold agendar_cita. destruct (strptime_fecha_hora f); [|by destruct w].
  destruct (ocupado _ _ _); [by destruct w | done].
Qed.

Lemma aplicar_cancelar_cita w c :
  aplicar w (Cancelar_cita c)
  = if py_in c (citas (sistema_cit w))
    then mk_Mundo (sistema_pac w) (sistema_cit w) (sistema_trat w)
           (modificar_cita (fun x => Cita.con_estado x "Cancelada") c (memoria w))
    else w.
Proof.
  simpl. unfold cancelar_cita. destruct (py_in _ _); [done | by destruct w].
Qed.

Lemma aplicar_registrar_tratamiento w p f d o :
  aplicar w (Registrar_tratamiento p f d o)
  = match strptime_fecha f with
    | None => w
    | Some dt =>
        mk_Mundo (sistema_pac w) (sistema_cit w)
          (SistemaHistorialTratamientos.mk
             (registro_tratamientos (sistema_trat w)
              ++ [length (los_tratamientos (memoria w))]))
          (mk_Memoria
             (alter (fun q => Paciente.agregar_tratamiento q
                                (length (los_tratamientos (memoria w))))
                p (los_pacientes (memoria w)))
             (las_citas (memoria w))
             (los_tratamientos (memoria w) ++
                [Tratamiento.mk (Tratamiento_contador_id (memoria w) + 1) p dt d o])
             (Cita_contador_id (memoria w))
             (Tratamiento_contador_id (memoria w) + 1))
    end.
Proof.
  simpl. unfold registrar_tratamiento. destruct (strptime_fecha f); [done | by destruct w].
Qed.

Lemma correr_snoc ops op : correr (ops ++ [op]) = aplicar (correr ops) op.
Proof. unfold correr. by rewrite foldl_app. Qed.

Lemma citas_ok_igual w w' :
  sistema_cit w' = sistema_cit w ->
  las_citas (memoria w') = las_citas (memoria w) ->
  Cita_contador_id (memoria w') = Cita_contador_id (memoria w) ->
  citas_ok w -> citas_ok w'.
Proof. intros H1 H2 H3 H. unfold citas_ok in *. by rewrite H1, H2, H3. Qed.

Lemma citas_ok_la_cita w i c :
  las_citas (memoria w) !! i = Some c -> la_cita (memoria w) i = c.
Proof. intros H. unfold la_cita. by apply list_lookup_total_correct. Qed.

Lemma aplicar_citas_ok w op : citas_ok w -> citas_ok (aplicar w op).
Proof.
  intros Hw. destruct op as [n t d f h|i n t d f h|p f mo|c|p f d o].
  - rewrite aplicar_registrar_paciente. destruct (strptime_fecha f); [|done].
    by apply (citas_ok_igual w).
  - rewrite aplicar_actualizar_paciente.
    destruct (buscar_paciente_por_id _ _ _); [|done]. by apply (citas_ok_igual w).
  - rewrite aplicar_agendar_cita.
    destruct (strptime_fecha_hora f) as [dt|]; [|done].
    destruct (ocupado _ _ _) eqn:Eo; [done|].
    destruct Hw as (H1 & H2 & H3 & H4).
    assert (forall i ci, las_citas (memoria w) !! i = Some ci ->
              Cita.estado ci = "Programada" -> Cita.fecha_hora ci ≠ dt) as Hlibre.
    { intros i ci Hi He Hdt.
      apply (proj1 (ocupado_false _ _ _) Eo i).
      - rewrite H1. apply elem_of_seq. apply lookup_lt_Some in Hi. lia.
      - by rewrite (citas_ok_la_cita w i ci). }
    unfold citas_ok. simpl. rewrite length_app. simpl. split_and!.
    + by rewrite H1, Nat.add_1_r, seq_S.
    + rewrite H2. lia.
    + intros i c Hc. apply lookup_app_Some in Hc as [Hc|[Hlen Hc]]; [eauto|].
      destruct (i - length (las_citas (memoria w)))%nat as [|k] eqn:Ek;
        simpl in Hc; [|done].
      injection Hc as <-. simpl. split; [rewrite H2; lia | by left].
    + intros i j ci cj Hi Hj Hij Hei Hej.
      apply lookup_app_Some in Hi as [Hi|[Hleni Hi]];
        apply lookup_app_Some in Hj as [Hj|[Hlenj Hj]].
      * by apply (H4 i j).
      * destruct (j - length (las_citas (memoria w)))%nat as [|k]; simpl in Hj; [|done].
        injection Hj as <-. simpl. by apply (Hlibre i).
      * destruct (i - length (las_citas (memoria w)))%nat as [|k]; simpl in Hi; [|done].
        injection Hi as <-. simpl. intros Heq. by apply (Hlibre j cj).
      * destruct (i - length (las_citas (memoria w)))%nat as [|k] eqn:Ei;
          simpl in Hi; [|done].
        destruct (j - length (las_citas (memoria w)))%nat as [|k] eqn:Ej;
          simpl in Hj; [|done]. lia.
  - rewrite aplicar_cancelar_cita. destruct (py_in _ _); [|done].
    destruct Hw as (H1 & H2 & H3 & H4).
    unfold citas_ok. simpl. rewrite length_alter. split_and!; [done | done | |].
    + intros i x. rewrite list_lookup_alter. case_decide as Hd.
      * subst. destruct (las_citas (memoria w) !! i) as [y|] eqn:Ey; simpl; [|done].
        intros [= <-]. simpl. split; [by apply (H3 i y) | by right].
      * apply H3.
    + intros i j ci cj Hi Hj Hij Hei Hej.
      destruct (decide (c = i)) as [->|Hci].
      { rewrite list_lookup_alter_eq in Hi.
        destruct (las_citas (memoria w) !! i); simpl in Hi; [|done].
        injection Hi as <-. done. }
      destruct (decide (c = j)) as [->|Hcj].
      { rewrite list_lookup_alter_eq in Hj.
        destruct (las_citas (memoria w) !! j); simpl in Hj; [|done].
        injection Hj as <-. done. }
      rewrite list_lookup_alter_ne in Hi, Hj by done. by apply (H4 i j).
  - rewrite aplicar_registrar_tratamiento. destruct (strptime_fecha f); [|done].
    by apply (citas_ok_igual w).
Qed.

Lemma correr_citas_ok ops : citas_ok (correr ops).
Proof.
  induction ops as [|op ops IH] using rev_ind.
  - unfold citas_ok. simpl. by split_and!.
  - rewrite correr_snoc. by apply aplicar_citas_ok.
Qed.

Lemma ids_desde_uno {A} `{Inhabited A} (l : list A) (f : A -> Z) :
  (forall i x, l !! i = Some x -> f x = Z.of_nat i + 1) ->
  (fun r => f (l !!! r)) <$> seq 0 (length l)
  = (fun k => Z.of_nat k) <$> seq 1 (length l).
Proof.
  intros Hf. apply list_eq. intros i. rewrite !list_lookup_fmap.
  destruct (decide (i < length l)%nat) as [Hi|Hi].
  - rewrite !lookup_seq_lt by done. simpl.
    destruct (lookup_lt_is_Some_2 l i Hi) as [x Hx].
    rewrite (list_lookup_total_correct _ _ _ Hx), (Hf _ _ Hx). f_equal. lia.
  - by rewrite !lookup_seq_ge by lia.
Qed.

(** X1. The invariant of the type: at most one "Programada" appointment at a
    date and time.  In every state the service calls reach from the start,
    the appointments [obtener_todas_las_citas_programadas] lists are
    pairwise distinct objects at pairwise different dates and times. *)
Theorem programadas_sin_doble_reserva (ops : list Operacion) :
  let w := correr ops in
  let programadas :=
    obtener_todas_las_citas_programadas (sistema_cit w) (memoria w) in
  NoDup programadas
  /\ forall c1 c2, c1 ∈ programadas -> c2 ∈ programadas -> c1 ≠ c2 ->
       Cita.fecha_hora (la_cita (memoria w) c1)
       ≠ Cita.fecha_hora (la_cita (memoria w) c2).
Proof.
  intros w programadas. destruct (correr_citas_ok ops) as (H1 & H2 & H3 & H4).
  fold w in H1, H2, H3, H4. unfold programadas, obtener_todas_las_citas_programadas.
  rewrite H1. split; [apply NoDup_filter, NoDup_seq|].
  intros c1 c2 [He1 Hc1%elem_of_seq]%list_elem_of_filter
         [He2 Hc2%elem_of_seq]%list_elem_of_filter Hne.
  destruct (lookup_lt_is_Some_2 (las_citas (memoria w)) c1) as [x1 Hx1]; [lia|].
  destruct (lookup_lt_is_Some_2 (las_citas (memoria w)) c2) as [x2 Hx2]; [lia|].
  rewrite (citas_ok_la_cita w c1 x1 Hx1) in *.
  rewrite (citas_ok_la_cita w c2 x2 Hx2) in *.
  by apply (H4 c1 c2).
Qed.

(** X2. Appointment ids.  In every state reached from the start the ids of
    the appointments of the collection, in order, are 1, 2, ..., n, the
    class counter is n, and every status is "Programada" or "Cancelada"
    ("Completada" is never written).  A call of [agendar_cita] that is
    refused (format or occupied slot) uses up no id; one that succeeds
    returns an appointment with id n + 1. *)
Theorem citas_ids_secuenciales (ops : list Operacion) :
  let w := correr ops in
  let n := length (citas (sistema_cit w)) in
  (fun c => Cita.id_cita (la_cita (memoria w) c)) <$> citas (sistema_cit w)
  = (fun k => Z.of_nat k) <$> seq 1 n
  /\ Cita_contador_id (memoria w) = Z.of_nat n
  /\ (forall c, c ∈ citas (sistema_cit w) ->
        Cita.estado (la_cita (memoria w) c) = "Programada"
        \/ Cita.estado (la_cita (memoria w) c) = "Cancelada")
  /\ forall paciente fecha_hora_str motivo,
       match agendar_cita (sistema_cit w) paciente fecha_hora_str motivo (memoria w) with
       | (inl _, sc, m') =>
           sc = sistema_cit w /\ m' = memoria w
       | (inr cita, sc, m') =>
           Cita.id_cita (la_cita m' cita) = Z.of_nat n + 1
           /\ Cita_contador_id m' = Z.of_nat n + 1
           /\ cita ∉ citas (sistema_cit w)
       end.
Proof.
  intros w n. destruct (correr_citas_ok ops) as (H1 & H2 & H3 & H4).
  fold w in H1, H2, H3, H4.
  assert (n = length (las_citas (memoria w))) as Hn
    by (unfold n; by rewrite H1, length_seq).
  split_and!.
  - rewrite H1, Hn. apply (ids_desde_uno (las_citas (memoria w)) Cita.id_cita).
    intros i x Hx. by apply (H3 i x).
  - by rewrite Hn.
  - intros c Hc. rewrite H1 in Hc. apply elem_of_seq in Hc.
    destruct (lookup_lt_is_Some_2 (las_citas (memoria w)) c) as [x Hx]; [lia|].
    rewrite (citas_ok_la_cita w c x Hx). by apply (H3 c x).
  - intros paciente fecha_hora_str motivo. unfold agendar_cita.
    destruct (strptime_fecha_hora fecha_hora_str) as [dt|]; [|done].
    destruct (ocupado _ _ _); [done|]. simpl. split_and!.
    + unfold la_cita. simpl. rewrite lookup_total_app_r by lia.
      rewrite Nat.sub_diag. simpl. lia.
    + lia.
    + rewrite H1. rewrite elem_of_seq. lia.
Qed.

(** X3. Appointments are never removed and never rewritten, except for the
    status, which a call leaves as it is or sets to "Cancelada": whatever
    the state and the call, the collection before is a prefix of the
    collection after, an appointment object keeps its id, patient, date
    and time and reason, and one that is "Cancelada" stays "Cancelada". *)
Theorem citas_solo_se_cancelan (w : Mundo) (op : Operacion) :
  citas (sistema_cit w) `prefix_of` citas (sistema_cit (aplicar w op))
  /\ forall r c, las_citas (memoria w) !! r = Some c ->
       exists c', las_citas (memoria (aplicar w op)) !! r = Some c'
         /\ Cita.id_cita c' = Cita.id_cita c
         /\ Cita.paciente c' = Cita.paciente c
         /\ Cita.fecha_hora c' = Cita.fecha_hora c
         /\ Cita.motivo c' = Cita.motivo c
         /\ (Cita.estado c' = Cita.estado c \/ Cita.estado c' = "Cancelada")
         /\ (Cita.estado c = "Cancelada" -> Cita.estado c' = "Cancelada").
Proof.
  assert (forall w', citas (sistema_cit w') = citas (sistema_cit w) ->
            las_citas (memoria w') = las_citas (memoria w) ->
            citas (sistema_cit w) `prefix_of` citas (sistema_cit w')
            /\ forall r c, las_citas (memoria w) !! r = Some c ->
                 exists c', las_citas (memoria w') !! r = Some c'
                   /\ Cita.id_cita c' = Cita.id_cita c
                   /\ Cita.paciente c' = Cita.paciente c
                   /\ Cita.fecha_hora c' = Cita.fecha_hora c
                   /\ Cita.motivo c' = Cita.motivo c
                   /\ (Cita.estado c' = Cita.estado c \/ Cita.estado c' = "Cancelada")
                   /\ (Cita.estado c = "Cancelada" -> Cita.estado c' = "Cancelada"))
    as Higual.
  { intros w' -> ->. split; [done|]. intros r c Hc. exists c. split_and!; auto. }
  destruct op as [n t d f h|i n t d f h|p f mo|c|p f d o].
  - rewrite aplicar_registrar_paciente. destruct (strptime_fecha f); by apply Higual.
  - rewrite aplicar_actualizar_paciente.
    destruct (buscar_paciente_por_id _ _ _); by apply Higual.
  - rewrite aplicar_agendar_cita.
    destruct (strptime_fecha_hora f) as [dt|]; [|by apply Higual].
    destruct (ocupado _ _ _); [by apply Higual|]. simpl.
    split; [by apply prefix_app_r|].
    intros r c Hc. exists c. split_and!; auto. by apply lookup_app_l_Some.
  - rewrite aplicar_cancelar_cita. destruct (py_in _ _); [|by apply Higual].
    simpl. split; [done|]. intros r x Hx.
    destruct (decide (c = r)) as [->|Hne].
    + rewrite list_lookup_alter_eq, Hx. simpl. eexists. split_and!; eauto.
    + rewrite list_lookup_alter_ne by done. exists x. split_and!; auto.
  - rewrite aplicar_registrar_tratamiento. destruct (strptime_fecha f); by apply Higual.
Qed.

Lemma tratamientos_ok_igual w w' :
  sistema_trat w' = sistema_trat w ->
  los_tratamientos (memoria w') = los_tratamientos (memoria w) ->
  Tratamiento_contador_id (memoria w') = Tratamiento_contador_id (memoria w) ->
  tratamientos_ok w -> tratamientos_ok w'.
Proof. intros H1 H2 H3 H. unfold tratamientos_ok in *. by rewrite H1, H2, H3. Qed.

Lemma aplicar_tratamientos_ok w op : tratamientos_ok w -> tratamientos_ok (aplicar w op).
Proof.
  intros Hw. destruct op as [n t d f h|i n t d f h|p f mo|c|p f d o].
  - rewrite aplicar_registrar_paciente. destruct (strptime_fecha f); [|done].
    by apply (tratamientos_ok_igual w).
  - rewrite aplicar_actualizar_paciente.
    destruct (buscar_paciente_por_id _ _ _); [|done].
    by apply (tratamientos_ok_igual w).
  - rewrite aplicar_agendar_cita. destruct (strptime_fecha_hora f); [|done].
    destruct (ocupado _ _ _); [done|]. by apply (tratamientos_ok_igual w).
  - rewrite aplicar_cancelar_cita. destruct (py_in _ _); [|done].
    by apply (tratamientos_ok_igual w).
  - rewrite aplicar_registrar_tratamiento. destruct (strptime_fecha f) as [dt|]; [|done].
    destruct Hw as (H1 & H2 & H3). unfold tratamientos_ok. simpl.
    rewrite length_app. simpl. split_and!.
    + by rewrite H1, Nat.add_1_r, seq_S.
    + rewrite H2. lia.
    + intros i t Ht. apply lookup_app_Some in Ht as [Ht|[Hlen Ht]]; [eauto|].
      destruct (i - length (los_tratamientos (memoria w)))%nat as [|k] eqn:Ek;
        simpl in Ht; [|done].
      injection Ht as <-. simpl. rewrite H2. lia.
Qed.

Lemma correr_tratamientos_ok ops : tratamientos_ok (correr ops).
Proof.
  induction ops as [|op ops IH] using rev_ind.
  - unfold tratamientos_ok. simpl. by split_and!.
  - rewrite correr_snoc. by apply aplicar_tratamientos_ok.
Qed.

(** X4. Treatment ids.  In every state reached from the start the ids of the
    ledger entries, in order, are 1, 2, ..., n across all patients, and
    the class counter is n.  A call of [registrar_tratamiento] refused for
    its date uses up no id and changes nothing; one that succeeds returns
    a treatment with id n + 1 that was not in the ledger. *)
Theorem tratamientos_ids_secuenciales (ops : list Operacion) :
  let w := correr ops in
  let n := length (registro_tratamientos (sistema_trat w)) in
  (fun t => Tratamiento.id_tratamiento (el_tratamiento (memoria w) t))
    <$> registro_tratamientos (sistema_trat w)
  = (fun k => Z.of_nat k) <$> seq 1 n
  /\ Tratamiento_contador_id (memoria w) = Z.of_nat n
  /\ forall paciente fecha_str descripcion odontologo,
       match registrar_tratamiento (sistema_trat w) paciente fecha_str descripcion
               odontologo (memoria w) with
       | (inl _, st, m') => st = sistema_trat w /\ m' = memoria w
       | (inr t, st, m') =>
           Tratamiento.id_tratamiento (el_tratamiento m' t) = Z.of_nat n + 1
           /\ Tratamiento_contador_id m' = Z.of_nat n + 1
           /\ t ∉ registro_tratamientos (sistema_trat w)
       end.
Proof.
  intros w n. destruct (correr_tratamientos_ok ops) as (H1 & H2 & H3).
  fold w in H1, H2, H3.
  assert (n = length (los_tratamientos (memoria w))) as Hn
    by (unfold n; by rewrite H1, length_seq).
  split_and!.
  - rewrite H1, Hn.
    by apply (ids_desde_uno (los_tratamientos (memoria w)) Tratamiento.id_tratamiento).
  - by rewrite Hn.
  - intros paciente fecha_str descripcion odontologo. unfold registrar_tratamiento.
    destruct (strptime_fecha fecha_str) as [dt|]; [|done]. simpl. split_and!.
    + unfold el_tratamiento. simpl. rewrite lookup_total_app_r by lia.
      rewrite Nat.sub_diag. simpl. lia.
    + lia.
    + rewrite H1, elem_of_seq. lia.
Qed.

(** X5. Treatments are append-only.  Whatever the state and the call, the
    ledger before is a prefix of the ledger after, the treatment objects
    before are the first treatment objects after, unchanged, and the
    history of every patient before is a prefix of that patient's history
    after. *)
Theorem tratamientos_solo_se_agregan (w : Mundo) (op : Operacion) :
  registro_tratamientos (sistema_trat w)
    `prefix_of` registro_tratamientos (sistema_trat (aplicar w op))
  /\ los_tratamientos (memoria w) `prefix_of` los_tratamientos (memoria (aplicar w op))
  /\ forall p q, los_pacientes (memoria w) !! p = Some q ->
       exists q', los_pacientes (memoria (aplicar w op)) !! p = Some q'
         /\ Paciente.tratamientos q `prefix_of` Paciente.tratamientos q'.
Proof.
  assert (forall w', registro_tratamientos (sistema_trat w')
                     = registro_tratamientos (sistema_trat w) ->
            los_tratamientos (memoria w') = los_tratamientos (memoria w) ->
            (forall p q, los_pacientes (memoria w) !! p = Some q ->
               exists q', los_pacientes (memoria w') !! p = Some q'
                 /\ Paciente.tratamientos q `prefix_of` Paciente.tratamientos q') ->
            registro_tratamientos (sistema_trat w)
              `prefix_of` registro_tratamientos (sistema_trat w')
            /\ los_tratamientos (memoria w) `prefix_of` los_tratamientos (memoria w')
            /\ forall p q, los_pacientes (memoria w) !! p = Some q ->
                 exists q', los_pacientes (memoria w') !! p = Some q'
                   /\ Paciente.tratamientos q `prefix_of` Paciente.tratamientos q')
    as Higual by (intros w' -> -> H; done).
  assert (forall p q, los_pacientes (memoria w) !! p = Some q ->
            exists q', los_pacientes (memoria w) !! p = Some q'
              /\ Paciente.tratamientos q `prefix_of` Paciente.tratamientos q')
    as Hrefl by (intros p q Hq; by exists q).
  destruct op as [n t d f h|i n t d f h|p f mo|c|p f d o].
  - rewrite aplicar_registrar_paciente. destruct (strptime_fecha f); [|by apply Higual].
    apply Higual; [done | done |]. simpl. intros p q Hq. exists q.
    split; [by apply lookup_app_l_Some | done].
  - rewrite aplicar_actualizar_paciente.
    destruct (buscar_paciente_por_id _ _ _) as [r|]; [|by apply Higual].
    apply Higual; [done | done |]. simpl. intros p q Hq.
    destruct (decide (r = p)) as [->|Hne].
    + rewrite list_lookup_alter_eq, Hq. simpl. by eexists.
    + rewrite list_lookup_alter_ne by done. by exists q.
  - rewrite aplicar_agendar_cita. destruct (strptime_fecha_hora f); [|by apply Higual].
    destruct (ocupado _ _ _); by apply Higual.
  - rewrite aplicar_cancelar_cita. destruct (py_in _ _); by apply Higual.
  - rewrite aplicar_registrar_tratamiento. destruct (strptime_fecha f); [|by apply Higual].
    simpl. split_and!; [by apply prefix_app_r | by apply prefix_app_r |].
    intros r q Hq. destruct (decide (p = r)) as [->|Hne].
    + rewrite list_lookup_alter_eq, Hq. simpl. eexists. split; [done|].
      simpl. by apply prefix_app_r.
    + rewrite list_lookup_alter_ne by done. by exists q.
Qed.

Lemma filter_ext_elem {A} (P Q : A -> Prop)
    `{forall x, Decision (P x)} `{forall x, Decision (Q x)} (l : list A) :
  (forall x, x ∈ l -> (P x <-> Q x)) -> filter P l = filter Q l.
Proof.
  induction l as [|x l IH]; intros HPQ; [done|].
  rewrite !filter_cons.
  rewrite IH by (intros y Hy; apply HPQ; by right).
  destruct (decide (P x)) as [HP|HP]; destruct (decide (Q x)) as [HQ|HQ]; try done.
  - exfalso. apply HQ, HPQ; [left | done].
  - exfalso. apply HP, HPQ; [left | done].
Qed.

Lemma filter_ninguno {A} (P : A -> Prop) `{forall x, Decision (P x)} (l : list A) :
  (forall x, x ∈ l -> ~ P x) -> filter P l = [].
Proof.
  induction l as [|x l IH]; intros HP; [done|].
  rewrite filter_cons_False by (apply HP; left).
  apply IH. intros y Hy. apply HP. by right.
Qed.

Lemma historial_ok_igual w w' :
  sistema_trat w' = sistema_trat w ->
  los_tratamientos (memoria w') = los_tratamientos (memoria w) ->
  los_pacientes (memoria w') = los_pacientes (memoria w) ->
  historial_ok w -> historial_ok w'.
Proof.
  intros H1 H2 H3 H. unfold historial_ok, obtener_tratamientos_por_paciente,
    el_paciente, el_tratamiento in *. by rewrite H1, H2, H3.
Qed.

Lemma aplicar_historial_ok w op :
  tratamientos_ok w -> historial_ok w -> op_valida w op -> historial_ok (aplicar w op).
Proof.
  intros (T1 & T2 & T3) Hw Hop.
  destruct op as [n t d f h|i n t d f h|p f mo|c|p f d o].
  - rewrite aplicar_registrar_paciente. destruct (strptime_fecha f); [|done].
    destruct Hw as [H1 H2]. split; simpl.
    + intros i x Hx. rewrite length_app. simpl. apply H1 in Hx. lia.
    + intros p Hp. rewrite length_app in Hp. simpl in Hp.
      unfold obtener_tratamientos_por_paciente, el_paciente. simpl.
      destruct (decide (p < length (los_pacientes (memoria w)))%nat) as [Hlt|Hge].
      * rewrite lookup_total_app_l by done. by apply H2.
      * rewrite lookup_total_app_r by lia.
        replace (p - length (los_pacientes (memoria w)))%nat with 0%nat by lia.
        simpl. symmetry. apply filter_ninguno. intros x Hx Hpx.
        rewrite T1 in Hx. apply elem_of_seq in Hx.
        destruct (lookup_lt_is_Some_2 (los_tratamientos (memoria w)) x) as [y Hy]; [lia|].
        unfold el_tratamiento in Hpx. simpl in Hpx.
        rewrite (list_lookup_total_correct _ _ _ Hy) in Hpx.
        apply H1 in Hy. lia.
  - rewrite aplicar_actualizar_paciente.
    destruct (buscar_paciente_por_id _ _ _) as [r|]; [|done].
    destruct Hw as [H1 H2]. split; simpl.
    + intros j x Hx. rewrite length_alter. by apply (H1 j).
    + intros p Hp. rewrite length_alter in Hp.
      unfold obtener_tratamientos_por_paciente, el_paciente. simpl.
      rewrite list_lookup_total_alter. case_decide as Hd.
      * destruct Hd as [-> _]. simpl. by apply H2.
      * by apply H2.
  - rewrite aplicar_agendar_cita. destruct (strptime_fecha_hora f); [|done].
    destruct (ocupado _ _ _); [done|]. by apply (historial_ok_igual w).
  - rewrite aplicar_cancelar_cita. destruct (py_in _ _); [|done].
    by apply (historial_ok_igual w).
  - rewrite aplicar_registrar_tratamiento. destruct (strptime_fecha f) as [dt|]; [|done].
    simpl in Hop. destruct Hw as [H1 H2]. split; simpl.
    + intros j x Hx. rewrite length_alter.
      apply lookup_app_Some in Hx as [Hx|[Hlen Hx]]; [by apply (H1 j)|].
      destruct (j - length (los_tratamientos (memoria w)))%nat; simpl in Hx; [|done].
      by injection Hx as <-.
    + intros q Hq. rewrite length_alter in Hq.
      unfold obtener_tratamientos_por_paciente, el_paciente, el_tratamiento. simpl.
      rewrite filter_app.
      assert (filter
                (fun t0 => Tratamiento.paciente
                             ((los_tratamientos (memoria w) ++
                                 [Tratamiento.mk (Tratamiento_contador_id (memoria w) + 1)
                                    p dt d o]) !!! t0) = q)
                (registro_tratamientos (sistema_trat w))
              = filter
                  (fun t0 => Tratamiento.paciente (el_tratamiento (memoria w) t0) = q)
                  (registro_tratamientos (sistema_trat w))) as ->.
      { apply filter_ext_elem. intros x Hx. rewrite T1 in Hx. apply elem_of_seq in Hx.
        unfold el_tratamiento. by rewrite lookup_total_app_l by lia. }
      rewrite <- (H2 q Hq). unfold obtener_tratamientos_por_paciente, el_paciente.
      rewrite filter_cons, filter_nil.
      rewrite lookup_total_app_r by lia. rewrite Nat.sub_diag. simpl.
      destruct (decide (p = q)) as [->|Hne].
      * by rewrite list_lookup_total_alter_eq.
      * rewrite list_lookup_total_alter_ne by done. by rewrite app_nil_r.
Qed.

Lemma alcanzable_es_correr w : alcanzable w -> exists ops, w = correr ops.
Proof.
  induction 1 as [|w op Hw [ops ->] Hop].
  - by exists [].
  - exists (ops ++ [op]). by rewrite correr_snoc.
Qed.

Lemma alcanzable_validas w ops :
  alcanzable w -> validas w ops -> alcanzable (foldl aplicar w ops).
Proof.
  revert w. induction ops as [|op ops IH]; intros w Hw Hv; [done|].
  destruct Hv as [Hop Hv]. simpl. apply IH; [by constructor | done].
Qed.

Lemma alcanzable_historial_ok w : alcanzable w -> historial_ok w.
Proof.
  induction 1 as [|w op Hw IH Hop].
  - split; simpl; [intros i t H; by rewrite lookup_nil in H | intros p Hp; simpl in Hp; lia].
  - apply aplicar_historial_ok; [|done..].
    destruct (alcanzable_es_correr w Hw) as [ops ->]. apply correr_tratamientos_ok.
Qed.

(** X6. The two places a treatment is recorded in agree.  In every state
    reached from the start by calls made with patients of the store, each
    ledger entry is a treatment of a patient of the store, and
    [obtener_tratamientos_por_paciente] gives, for every patient, the
    ledger entries of that patient in ledger order. *)
Theorem historial_es_registro_del_paciente (w : Mundo) (Hw : alcanzable w) :
  (forall t, t ∈ registro_tratamientos (sistema_trat w) ->
     (Tratamiento.paciente (el_tratamiento (memoria w) t)
      < length (los_pacientes (memoria w)))%nat)
  /\ forall p, (p < length (los_pacientes (memoria w)))%nat ->
       obtener_tratamientos_por_paciente p (memoria w)
       = filter (fun t => Tratamiento.paciente (el_tratamiento (memoria w) t) = p)
           (registro_tratamientos (sistema_trat w)).
Proof.
  destruct (alcanzable_historial_ok w Hw) as [H1 H2]. split; [|done].
  destruct (alcanzable_es_correr w Hw) as [ops ->].
  destruct (correr_tratamientos_ok ops) as (T1 & _ & _).
  intros t Ht. rewrite T1 in Ht. apply elem_of_seq in Ht.
  destruct (lookup_lt_is_Some_2 (los_tratamientos (memoria (correr ops))) t)
    as [x Hx]; [lia|].
  unfold el_tratamiento. rewrite (list_lookup_total_correct _ _ _ Hx). by apply (H1 t).
Qed.

Lemma historial_es_registro_del_paciente_witness :
  registro_tratamientos (sistema_trat (correr ejemplo_operaciones)) = [0; 1]%nat
  /\ obtener_tratamientos_por_paciente 1%nat (memoria (correr ejemplo_operaciones))
     = filter
         (fun t =>
            Tratamiento.paciente
              (el_tratamiento (memoria (correr ejemplo_operaciones)) t) = 1%nat)
         (registro_tratamientos (sistema_trat (correr ejemplo_operaciones))).
Proof.
  split; [by vm_compute|].
  apply (historial_es_registro_del_paciente (correr ejemplo_operaciones)).
  - apply alcanzable_validas; [constructor|]. vm_compute. repeat split; lia.
  - vm_compute. lia.
Defined.

End Mundo_props.

(** ** Lookups and updates of the registry *)

Section Registro_props.
Import SistemaGestionPacientes.
Context `{unicode : Unicode}.

Lemma buscar_en_seq a k id m :
  (forall i, (a <= i < a + k)%nat ->
     Paciente.id_paciente (el_paciente m i) = Z.of_nat i + 1) ->
  buscar_en (seq a k) id m
  = if decide (Z.of_nat a + 1 <= id <= Z.of_nat (a + k))
    then Some (Z.to_nat (id - 1)) else None.
Proof.
  revert a. induction k as [|k IH]; intros a Hids; simpl.
  - rewrite decide_False by lia. done.
  - rewrite (Hids a) by lia. case_decide as Hd.
    + rewrite decide_True by lia. f_equal. lia.
    + rewrite IH by (intros i Hi; apply Hids; lia).
      repeat case_decide; try done; lia.
Qed.

(** X7. Lookup by id after registrations.  In every state reached from the
    start with n registered patients, [buscar_paciente_por_id] returns the
    patient registered k-th for every id k from 1 to n, that patient has
    id k, and it returns [None] for every other integer. *)
Theorem buscar_paciente_por_id_registrados (ops : list Operacion) (id_paciente : Z) :
  let w := correr ops in
  let n := length (pacientes (sistema_pac w)) in
  buscar_paciente_por_id (sistema_pac w) id_paciente (memoria w)
  = (if decide (1 <= id_paciente <= Z.of_nat n)
     then pacientes (sistema_pac w) !! Z.to_nat (id_paciente - 1)
     else None)
  /\ forall p, buscar_paciente_por_id (sistema_pac w) id_paciente (memoria w) = Some p ->
       p ∈ pacientes (sistema_pac w)
       /\ Paciente.id_paciente (el_paciente (memoria w) p) = id_paciente.
Proof.
  intros w n. destruct (correr_registro_ok ops) as (H1 & H2 & H3).
  fold w in H1, H2, H3.
  assert (n = length (los_pacientes (memoria w))) as Hn
    by (unfold n; by rewrite H1, length_seq).
  assert (buscar_paciente_por_id (sistema_pac w) id_paciente (memoria w)
          = if decide (1 <= id_paciente <= Z.of_nat n)
            then Some (Z.to_nat (id_paciente - 1)) else None) as Hb.
  { unfold buscar_paciente_por_id. rewrite H1, buscar_en_seq.
    - rewrite <- Hn. simpl. repeat case_decide; try done; lia.
    - intros i Hi.
      destruct (lookup_lt_is_Some_2 (los_pacientes (memoria w)) i) as [q Hq]; [lia|].
      unfold el_paciente. rewrite (list_lookup_total_correct _ _ _ Hq). by apply (H2 i). }
  split.
  - rewrite Hb. case_decide as Hd; [|done].
    rewrite H1, lookup_seq_lt by lia. done.
  - intros p Hp. rewrite Hb in Hp. case_decide as Hd; [|done]. injection Hp as <-.
    split.
    + rewrite H1, elem_of_seq. lia.
    + destruct (lookup_lt_is_Some_2 (los_pacientes (memoria w))
                  (Z.to_nat (id_paciente - 1))) as [q Hq]; [lia|].
      unfold el_paciente. rewrite (list_lookup_total_correct _ _ _ Hq).
      rewrite (H2 _ _ Hq). lia.
Qed.

Lemma empieza_con_refl s : empieza_con s s = true.
Proof.
  induction s as [|c s IH]; simpl; [done|].
  by rewrite bool_decide_eq_true_2, IH.
Qed.

Lemma py_in_str_refl s : py_in_str s s = true.
Proof. destruct s; simpl; [done|]. by rewrite bool_decide_eq_true_2, empieza_con_refl. Qed.

Lemma py_in_str_vacio s : py_in_str "" s = true.
Proof. by destruct s. Qed.

Lemma empieza_con_spec a b : empieza_con a b = true <-> exists y, b = a +:+ y.
Proof.
  revert b. induction a as [|x a IH]; intros b.
  - split; [intros _; by exists b | done].
  - destruct b as [|z b]; simpl.
    + split; [done | intros [y Hy]; done].
    + rewrite andb_true_iff, bool_decide_eq_true, IH. split.
      * intros [-> [y ->]]. by exists y.
      * intros [y Hy]. injection Hy as -> ->. split; [done | by exists y].
Qed.

(** [a in b] holds exactly when [b] is some text, then [a], then some
    text. *)
Lemma py_in_str_spec a b : py_in_str a b = true <-> exists x y, b = x +:+ a +:+ y.
Proof.
  induction b as [|c b IH]; simpl.
  - rewrite orb_false_r, empieza_con_spec. split.
    + intros [y Hy]. by exists "", y.
    + intros (x & y & Hxy). destruct x as [|c x]; [by exists y | done].
  - rewrite orb_true_iff, empieza_con_spec, IH. split.
    + intros [[y Hy]|(x & y & ->)]; [by exists "", y | by exists (String c x), y].
    + intros (x & y & Hxy). destruct x as [|c' x].
      * left. by exists y.
      * right. injection Hxy as -> ->. by exists x, y.
Qed.

(** X8. Search by name.  The result keeps registry order and holds
    exactly the registered patients in whose lower-cased name the
    lower-cased query occurs as a contiguous piece; the case of the query
    does not matter, in that two queries with the same lower-case form
    give the same result; every registered patient is found by a query
    whose lower-case form is that of its name; and the empty query
    returns the whole registry. *)
Theorem buscar_paciente_por_nombre_ignora_mayusculas
    (self : SistemaGestionPacientes.t) (consulta_nombre : string) (m : Memoria) :
  buscar_paciente_por_nombre self consulta_nombre m `sublist_of` pacientes self
  /\ (forall p,
        p ∈ buscar_paciente_por_nombre self consulta_nombre m
        <-> p ∈ pacientes self
            /\ exists a b,
                 lower (Paciente.nombre (el_paciente m p))
                 = a +:+ lower consulta_nombre +:+ b)
  /\ (forall consulta2,
        lower consulta2 = lower consulta_nombre ->
        buscar_paciente_por_nombre self consulta2 m
        = buscar_paciente_por_nombre self consulta_nombre m)
  /\ (forall p, p ∈ pacientes self ->
        lower consulta_nombre = lower (Paciente.nombre (el_paciente m p)) ->
        p ∈ buscar_paciente_por_nombre self consulta_nombre m)
  /\ buscar_paciente_por_nombre self "" m = pacientes self.
Proof.
  unfold buscar_paciente_por_nombre. split_and!.
  - apply sublist_filter.
  - intros p. rewrite list_elem_of_filter, py_in_str_spec. tauto.
  - intros consulta2 Hc. by rewrite Hc.
  - intros p Hp Hn. apply list_elem_of_filter. split; [|done].
    rewrite Hn. apply py_in_str_refl.
  - rewrite (lower_de_ascii "") by done. simpl.
    induction (pacientes self) as [|p l IH]; [done|].
    rewrite filter_cons_True by apply py_in_str_vacio. by rewrite IH.
Qed.

Lemma si_valor_idemp v a : Paciente.si_valor v (Paciente.si_valor v a) = Paciente.si_valor v a.
Proof. by destruct v as [[|c s]|]. Qed.

Lemma id_tras_modificar f r m x :
  (forall q, Paciente.id_paciente (f q) = Paciente.id_paciente q) ->
  Paciente.id_paciente (el_paciente (modificar_paciente f r m) x)
  = Paciente.id_paciente (el_paciente m x).
Proof.
  intros Hf. unfold el_paciente. simpl. rewrite list_lookup_total_alter.
  case_decide as Hd; [|done]. destruct Hd as [-> _]. apply Hf.
Qed.

Lemma buscar_en_modificar l id f r m :
  (forall q, Paciente.id_paciente (f q) = Paciente.id_paciente q) ->
  buscar_en l id (modificar_paciente f r m) = buscar_en l id m.
Proof.
  intros Hf. induction l as [|x l IH]; simpl; [done|].
  by rewrite IH, id_tras_modificar.
Qed.

(** X9. Updating is idempotent, and an update that supplies nothing changes
    nothing: a second [actualizar_paciente] with the same arguments
    returns the same value and leaves the store as the first one left it;
    with every field [None] or empty the store is unchanged, though the
    call still returns [True] when the id is registered. *)
Theorem actualizar_paciente_idempotente
    (self : SistemaGestionPacientes.t) (id_paciente : Z)
    (nombre telefono direccion fecha_nacimiento historial_medico : option string)
    (m : Memoria) :
  let vacio (v : option string) := v = None \/ v = Some "" in
  let r := actualizar_paciente self id_paciente nombre telefono direccion
             fecha_nacimiento historial_medico m in
  actualizar_paciente self id_paciente nombre telefono direccion
    fecha_nacimiento historial_medico r.2 = r
  /\ (vacio nombre -> vacio telefono -> vacio direccion -> vacio fecha_nacimiento ->
      vacio historial_medico -> r.2 = m)
  /\ (r.1 = true <-> is_Some (buscar_paciente_por_id self id_paciente m)).
Proof.
  intros vacio r. unfold r, actualizar_paciente, buscar_paciente_por_id.
  destruct (buscar_en (pacientes self) id_paciente m) as [p|] eqn:E; simpl.
  - split_and!.
    + rewrite buscar_en_modificar by done. rewrite E. f_equal.
      unfold modificar_paciente. simpl. f_equal.
      rewrite list_alter_alter_eq. apply list_alter_ext; [|done].
      intros q _. unfold Paciente.actualizar_info. simpl.
      by rewrite !si_valor_idemp.
    + intros H1 H2 H3 H4 H5. unfold modificar_paciente.
      rewrite list_alter_id; [by destruct m|].
      intros [i n t d f h ts]. unfold Paciente.actualizar_info. simpl.
      destruct H1 as [-> | ->], H2 as [-> | ->], H3 as [-> | ->],
        H4 as [-> | ->], H5 as [-> | ->]; reflexivity.
    + split; [by eexists | done].
  - rewrite E. split_and!; [done | done |].
    split; [done | intros [x Hx]; done].
Qed.

End Registro_props.

(** ** Unsubscribing, and the commands *)

Section Comandos_props.
Import Observable SistemaCitas.

Lemma list_remove_snoc o l : o ∉ l -> list_remove o (l ++ [o]) = inr l.
Proof.
  induction l as [|y l IH]; simpl; intros Ho.
  - by rewrite decide_True.
  - apply not_elem_of_cons in Ho as [Hne Ho].
    rewrite decide_False by congruence. by rewrite IH.
Qed.

(** X10. Unsubscribing undoes subscribing, and silences the listener.  For a
    listener that was not subscribed, [separar] after [adjuntar] gives
    back the hook as it was.  On a hook reached from its creation, after a
    [separar] that returns, the listener is no longer subscribed and
    [notificar] makes no call on it, every other listener is subscribed
    exactly when it was before, and subscribing the listener again puts it
    last. *)
Theorem separar_deshace_adjuntar :
  (forall self o, o ∉ _observadores self -> separar (adjuntar self o) o = inr self)
  /\ (forall cs o self',
        separar (ejecutar cs) o = inr self' ->
        (o ∉ _observadores self')
        /\ (forall mensaje,
              filter (fun e : ref * string => e.1 = o) (notificar self' mensaje) = [])
        /\ (forall x, x ≠ o ->
              (x ∈ _observadores self' <-> x ∈ _observadores (ejecutar cs)))
        /\ _observadores (adjuntar self' o) = _observadores self' ++ [o]).
Proof.
  split.
  - intros self o Ho. rewrite adjuntar_ausente by done. unfold separar. simpl.
    rewrite list_remove_snoc by done. by destruct self.
  - intros cs o self' Hs. unfold separar in Hs.
    destruct (list_remove o (_observadores (ejecutar cs))) as [e|r] eqn:E; [done|].
    injection Hs as <-. simpl.
    apply list_remove_inr in E as (l1 & l2 & Hl & -> & Hl1).
    pose proof (ejecutar_NoDup cs) as Hnd. rewrite Hl in Hnd.
    apply NoDup_app in Hnd as (_ & _ & Hnd). apply NoDup_cons in Hnd as [Hl2 _].
    assert (o ∉ l1 ++ l2) as Hfuera.
    { rewrite elem_of_app. intros [H|H]; done. }
    split_and!.
    + done.
    + intros mensaje. rewrite notificar_fmap. simpl. apply filter_ninguno.
      intros e (y & -> & Hy)%list_elem_of_fmap. simpl. by intros ->.
    + intros x Hx. rewrite Hl, !elem_of_app, elem_of_cons. split.
      * intros [H|H]; [by left | right; by right].
      * intros [H|[H|H]]; [by left | done | by right].
    + by rewrite adjuntar_ausente.
Qed.

(** X11. [AgendarCitaComando.ejecutar] announces exactly the appointments it
    makes.  When [agendar_cita] returns an appointment the command keeps
    it, returns [True], shows no dialog, and calls [actualizar] once on
    each listener of the list, in order, with the text naming the patient
    and the date and time as typed.  When it is refused the command
    returns [False], keeps no appointment, makes no call on any listener,
    and the only trace is the error dialog; the book is unchanged. *)
Theorem agendar_comando_notifica_lo_agendado
    (self : AgendarCitaComando.t) (sistema_citas : SistemaCitas.t) (m : Memoria) :
  let r := AgendarCitaComando.ejecutar self sistema_citas m in
  let mensaje :=
    "Nueva cita agendada para "
    +:+ Paciente.nombre (el_paciente m (AgendarCitaComando.paciente self))
    +:+ " el " +:+ AgendarCitaComando.fecha_hora self +:+ "." in
  (retorno r.2 = true
   <-> exists dt, strptime_fecha_hora (AgendarCitaComando.fecha_hora self) = Some dt
                  /\ ocupado (citas sistema_citas) dt m = false)
  /\ (retorno r.2 = true ->
        AgendarCitaComando.cita r.1 = Some (length (las_citas m))
        /\ dialogos r.2 = []
        /\ entregas r.2
           = (fun o => (o, mensaje)) <$> _observadores (observable sistema_citas)
        /\ citas (sistema_final r.2) = citas sistema_citas ++ [length (las_citas m)]
        /\ Cita.estado (la_cita (memoria_final r.2) (length (las_citas m)))
           = "Programada")
  /\ (retorno r.2 = false ->
        AgendarCitaComando.cita r.1 = None
        /\ entregas r.2 = []
        /\ (exists aviso, dialogos r.2 = [aviso])
        /\ sistema_final r.2 = sistema_citas
        /\ memoria_final r.2 = m).
Proof.
  intros r mensaje. unfold r, AgendarCitaComando.ejecutar, agendar_cita.
  destruct (strptime_fecha_hora (AgendarCitaComando.fecha_hora self)) as [dt|] eqn:E.
  - destruct (ocupado (citas sistema_citas) dt m) eqn:Eo; simpl.
    + split_and!.
      * split; [done | intros (dt' & [= <-] & H); congruence].
      * done.
      * intros _. split_and!; try done. by eexists.
    + split_and!.
      * split; [intros _; by exists dt | done].
      * intros _. split_and!; try done.
        -- by rewrite notificar_fmap.
        -- unfold la_cita. simpl. rewrite lookup_total_app_r by lia.
           by rewrite Nat.sub_diag.
      * done.
  - simpl. split_and!.
    + split; [done | intros (dt' & H & _); done].
    + done.
    + intros _. split_and!; try done. by eexists.
Qed.

(** X12. [CancelarCitaComando.ejecutar] announces every cancellation it makes.
    It returns [True] exactly when the appointment is in the collection,
    whatever its status, so executing it again on a cancelled appointment
    announces again; it then calls [actualizar] once on each listener of
    the list, in order, with the text naming the patient and the date and
    time of the appointment written as YYYY-MM-DD HH:MM:00.  Otherwise it
    returns [False], calls no listener and changes nothing.  It never
    shows a dialog. *)
Theorem cancelar_comando_notifica_lo_cancelado
    (cita : ref) (sistema_citas : SistemaCitas.t) (m : Memoria) :
  let r := CancelarCitaComando.ejecutar cita sistema_citas m in
  let mensaje :=
    "Cita cancelada para "
    +:+ Paciente.nombre (el_paciente m (Cita.paciente (la_cita m cita)))
    +:+ " el " +:+ str_datetime (Cita.fecha_hora (la_cita m cita)) +:+ "." in
  (retorno r = true <-> cita ∈ citas sistema_citas)
  /\ dialogos r = []
  /\ sistema_final r = sistema_citas
  /\ (cita ∈ citas sistema_citas ->
        entregas r
        = (fun o => (o, mensaje)) <$> _observadores (observable sistema_citas)
        /\ memoria_final r
           = modificar_cita (fun c => Cita.con_estado c "Cancelada") cita m
        /\ CancelarCitaComando.ejecutar cita sistema_citas (memoria_final r) = r)
  /\ (cita ∉ citas sistema_citas -> entregas r = [] /\ memoria_final r = m).
Proof.
  intros r mensaje. unfold r, CancelarCitaComando.ejecutar.
  destruct (decide (cita ∈ citas sistema_citas)) as [Hin|Hout].
  - rewrite cancelar_cita_miembro by done. simpl.
    destruct (la_cita_con_estado m cita "Cancelada" cita) as (Hp & Hf & _).
    simpl in Hp, Hf.
    split_and!; try done.
    intros _. split_and!.
    + rewrite notificar_fmap. rewrite Hp, Hf. done.
    + done.
    + rewrite cancelar_cita_miembro by done. simpl.
      set (f := fun c => Cita.con_estado c "Cancelada").
      assert (modificar_cita f cita (modificar_cita f cita m) = modificar_cita f cita m)
        as Hidem.
      { unfold modificar_cita. simpl. f_equal.
        rewrite list_alter_alter_eq. by apply list_alter_ext. }
      rewrite Hidem. done.
  - rewrite cancelar_cita_ajena by done. simpl. split_and!; try done.
Qed.

End Comandos_props.

(** ** Listings and reports over shared objects *)

Section Listados_props.
Import SistemaGestionPacientes SistemaCitas.

Lemma recorrer_lista_imap l m contenido i :
  ReporteListaPacientes.recorrer l m (contenido, i)
  = (contenido
     +:+ foldr String.append ""
           (imap (fun k p => ReporteListaPacientes.linea m (i + Z.of_nat k) p) l),
     i + Z.of_nat (length l)).
Proof.
  unfold ReporteListaPacientes.recorrer. revert contenido i.
  induction l as [|p l IH]; intros contenido i; simpl.
  - rewrite append_vacio. f_equal. lia.
  - rewrite IH, append_assoc, Z.add_0_r. f_equal.
    + do 3 f_equal. apply imap_ext. intros k x _. simpl. f_equal. lia.
    + lia.
Qed.

(** X13. The patient list report.  After the two header lines it says that
    there are no patients when the list is empty, and otherwise has one
    line per patient, in list order, numbered from 1, with the name and
    the telephone the patient has at that moment. *)
Theorem reporte_lista_pacientes_numerado (pacientes : list ref) (m : Memoria) :
  ReporteListaPacientes.generar pacientes m
  = "Lista de Pacientes Registrados:" +:+ nl
    +:+ "----------------------------------" +:+ nl
    +:+ (if decide (pacientes = []) then "No hay pacientes registrados." +:+ nl else "")
    +:+ foldr String.append ""
          (imap (fun k p =>
                   str_Z (Z.of_nat k + 1) +:+ ". "
                   +:+ Paciente.nombre (el_paciente m p) +:+ " - Tel: "
                   +:+ Paciente.telefono (el_paciente m p) +:+ nl)
             pacientes).
Proof.
  unfold ReporteListaPacientes.generar. rewrite recorrer_lista_imap. simpl fst.
  destruct pacientes as [|p l].
  - rewrite decide_True by done. simpl. by rewrite !append_assoc.
  - rewrite decide_False by done. rewrite !append_assoc. reflexivity.
Qed.

(** X14. Appointments and reports hold the patient object, not a copy of its
    data.  After [actualizar_paciente] has changed a patient, every
    appointment of that patient still refers to it, and the line of the
    appointment in the report by day and the line of the patient in the
    patient list show the updated name and telephone. *)
Theorem actualizacion_visible_en_reportes
    (self : SistemaGestionPacientes.t) (id_paciente : Z)
    (nombre telefono direccion fecha_nacimiento historial_medico : option string)
    (m : Memoria) (paciente : ref)
    (Hbuscar : buscar_paciente_por_id self id_paciente m = Some paciente)
    (Hobj : (paciente < length (los_pacientes m))%nat) :
  let m' := (actualizar_paciente self id_paciente nombre telefono direccion
               fecha_nacimiento historial_medico m).2 in
  let nombre' := Paciente.si_valor nombre (Paciente.nombre (el_paciente m paciente)) in
  let telefono' :=
    Paciente.si_valor telefono (Paciente.telefono (el_paciente m paciente)) in
  Paciente.nombre (el_paciente m' paciente) = nombre'
  /\ Paciente.telefono (el_paciente m' paciente) = telefono'
  /\ (forall i,
        ReporteListaPacientes.linea m' i paciente
        = str_Z (i + 1) +:+ ". " +:+ nombre' +:+ " - Tel: " +:+ telefono' +:+ nl)
  /\ (forall cita,
        Cita.paciente (la_cita m cita) = paciente ->
        la_cita m' cita = la_cita m cita
        /\ ReporteCitasPorDia.linea m' cita
           = "- " +:+ nombre' +:+ " a las "
             +:+ strftime_HM (Cita.fecha_hora (la_cita m cita))
             +:+ " (" +:+ Cita.motivo (la_cita m cita) +:+ ")" +:+ nl).
Proof.
  intros m' nombre' telefono'. unfold m', actualizar_paciente. rewrite Hbuscar. simpl.
  assert (el_paciente
            (modificar_paciente
               (fun p => Paciente.actualizar_info p nombre telefono direccion
                           fecha_nacimiento historial_medico) paciente m) paciente
          = Paciente.actualizar_info (el_paciente m paciente) nombre telefono direccion
              fecha_nacimiento historial_medico) as Hp.
  { unfold el_paciente. simpl. by rewrite list_lookup_total_alter_eq. }
  split_and!.
  - by rewrite Hp.
  - by rewrite Hp.
  - intros i. unfold ReporteListaPacientes.linea. by rewrite Hp.
  - intros cita Hc. split; [done|].
    unfold ReporteCitasPorDia.linea.
    change (la_cita (modificar_paciente _ paciente m) cita) with (la_cita m cita).
    by rewrite Hc, Hp.
Qed.

Lemma actualizacion_visible_en_reportes_witness :
  ReporteCitasPorDia.linea
    (actualizar_paciente (sistema_pac (correr ejemplo_operaciones)) 2
       (Some "Ana L. Ruiz") None None None None
       (memoria (correr ejemplo_operaciones))).2 1%nat
  = "- Ana L. Ruiz a las 10:00 (Revisión General)" +:+ nl.
Proof.
  destruct (actualizacion_visible_en_reportes
              (sistema_pac (correr ejemplo_operaciones)) 2
              (Some "Ana L. Ruiz") None None None None
              (memoria (correr ejemplo_operaciones)) 1%nat)
    as (_ & _ & _ & H).
  - by vm_compute.
  - vm_compute. lia.
  - destruct (H 1%nat) as [_ ->]; by vm_compute.
Defined.

(** X15. How the listings follow the calls.  The listing of a patient is the
    listing of all scheduled appointments restricted to that patient.  In
    every state reached from the start: a successful [agendar_cita] puts
    the new appointment last in the listing of all scheduled appointments
    and in that of its patient and leaves the other patients' listings as
    they were, a refused one changes no listing, and [cancelar_cita]
    removes the appointment from every listing and nothing else. *)
Theorem listados_tras_agendar_y_cancelar (ops : list Operacion) :
  let sc := sistema_cit (correr ops) in
  let m := memoria (correr ops) in
  (forall p,
     obtener_citas_por_paciente sc p m
     = filter (fun c => Cita.paciente (la_cita m c) = p)
         (obtener_todas_las_citas_programadas sc m))
  /\ (forall p f mo,
        match agendar_cita sc p f mo m with
        | (inr c, sc', m') =>
            obtener_todas_las_citas_programadas sc' m'
            = obtener_todas_las_citas_programadas sc m ++ [c]
            /\ obtener_citas_por_paciente sc' p m'
               = obtener_citas_por_paciente sc p m ++ [c]
            /\ forall q, q ≠ p ->
                 obtener_citas_por_paciente sc' q m' = obtener_citas_por_paciente sc q m
        | (inl _, sc', m') =>
            obtener_todas_las_citas_programadas sc' m'
            = obtener_todas_las_citas_programadas sc m
        end)
  /\ (forall c,
        let m' := (cancelar_cita sc c m).2 in
        obtener_todas_las_citas_programadas sc m'
        = filter (fun x => x ≠ c) (obtener_todas_las_citas_programadas sc m)
        /\ forall p,
             obtener_citas_por_paciente sc p m'
             = filter (fun x => x ≠ c) (obtener_citas_por_paciente sc p m)).
Proof.
  intros sc m. destruct (correr_citas_ok ops) as (H1 & _ & _ & _).
  fold sc in H1. fold m in H1.
  unfold obtener_citas_por_paciente, obtener_todas_las_citas_programadas.
  split_and!.
  - intros p. by rewrite list_filter_filter.
  - intros p f mo. unfold agendar_cita.
    destruct (strptime_fecha_hora f) as [dt|]; [|done].
    destruct (ocupado (citas sc) dt m); [done|]. simpl.
    set (m' := mk_Memoria _ _ _ _ _).
    assert (forall x, x ∈ citas sc -> la_cita m' x = la_cita m x) as Hviejas.
    { intros x Hx. rewrite H1 in Hx. apply elem_of_seq in Hx.
      apply (la_cita_tras_crear m (Cita.mk (Cita_contador_id m + 1) p dt mo "Programada"));
        [done | lia]. }
    assert (la_cita m' (length (las_citas m))
            = Cita.mk (Cita_contador_id m + 1) p dt mo "Programada") as Hnueva
      by (by apply (la_cita_creada m)).
    split_and!.
    + rewrite filter_app, filter_cons_True by (by rewrite Hnueva).
      rewrite filter_nil. f_equal.
      apply filter_ext_elem. intros x Hx. by rewrite Hviejas.
    + rewrite filter_app, filter_cons_True by (by rewrite Hnueva).
      rewrite filter_nil. f_equal.
      apply filter_ext_elem. intros x Hx. by rewrite Hviejas.
    + intros q Hq. rewrite filter_app, filter_cons_False.
      2:{ rewrite Hnueva. simpl. intros [H _]. done. }
      rewrite filter_nil, app_nil_r.
      apply filter_ext_elem. intros x Hx. by rewrite Hviejas.
  - intros c.
    destruct (decide (c ∈ citas sc)) as [Hin|Hout].
    + rewrite cancelar_cita_miembro by done. simpl.
      assert (c < length (las_citas m))%nat as Hc
        by (rewrite H1 in Hin; apply elem_of_seq in Hin; lia).
      split; [|intros p]; rewrite list_filter_filter; apply filter_ext_elem;
        intros x Hx; destruct (decide (x = c)) as [->|Hne].
      * rewrite la_cita_cancelada by done. simpl. split; [done | intros [H _]; done].
      * rewrite la_cita_otra by done. split; [done | by intros [_ H]].
      * rewrite la_cita_cancelada by done. simpl.
        split; [intros [_ H]; done | intros [H _]; done].
      * rewrite la_cita_otra by done. split; [done | by intros [_ H]].
    + rewrite cancelar_cita_ajena by done. simpl.
      split; [|intros p]; rewrite list_filter_filter; apply filter_ext_elem;
        intros x Hx; (split; [intros H; split; [by intros -> | done] | by intros [_ H]]).
Qed.

End Listados_props.

(** ** The tally of treatments *)

Section Tally_props.
Import SistemaHistorialTratamientos.
Context `{unicode : Unicode}.

Lemma total_dict_set d k :
  total (dict_set d k (dict_get d k 0 + 1)) = total d + 1.
Proof.
  induction d as [|[k0 v0] d IH]; simpl; [done|].
  destruct (decide (k0 = k)) as [->|Hne]; simpl; [lia|].
  fold (total (dict_set d k (dict_get d k 0 + 1))). fold (total d). rewrite IH. lia.
Qed.

Lemma total_contar registro m : total (contar registro m) = Z.of_nat (length registro).
Proof.
  induction registro as [|t registro IH] using rev_ind; [done|].
  rewrite contar_snoc, total_dict_set, IH, length_app. simpl. lia.
Qed.

Lemma total_Permutation d d' : d ≡ₚ d' -> total d = total d'.
Proof.
  induction 1 as [|x l l' _ IH|x y l|l l' l'' _ IH1 _ IH2]; simpl.
  - done.
  - fold (total l). fold (total l'). by rewrite IH.
  - lia.
  - by rewrite IH1.
Qed.

Lemma slice_hasta_sublist {A} (n : Z) (l : list A) : slice_hasta n l `sublist_of` l.
Proof. unfold slice_hasta. destruct (n <? 0); apply sublist_take. Qed.

(** X16. What [obtener_tratamientos_mas_comunes] can contain, for any [top_n].
    The keys of the result are pairwise distinct; every entry is a key
    that some ledger treatment has, with the number of ledger treatments
    of that key, which is at least 1; the result has no more entries than
    the ledger, and no more than [top_n] when [top_n] is not negative (so
    none for 0); and when [top_n] is at least the size of the ledger the
    counts add up to the size of the ledger. *)
Theorem mas_comunes_entradas
    (self : SistemaHistorialTratamientos.t) (top_n : Z) (m : Memoria) :
  let res := obtener_tratamientos_mas_comunes self top_n m in
  let claves := clave m <$> registro_tratamientos self in
  NoDup res.*1
  /\ (forall k v, (k, v) ∈ res ->
        v = ocurrencias k claves /\ 1 <= v
        /\ exists t, t ∈ registro_tratamientos self /\ clave m t = k)
  /\ (length res <= length (registro_tratamientos self))%nat
  /\ (0 <= top_n -> (length res <= Z.to_nat top_n)%nat)
  /\ (Z.of_nat (length (registro_tratamientos self)) <= top_n ->
      total res = Z.of_nat (length (registro_tratamientos self))).
Proof.
  intros res claves. unfold res. rewrite mas_comunes_ordenados.
  set (d := contar (registro_tratamientos self) m).
  pose proof (slice_hasta_sublist top_n (sorted_reverse d)) as Hsub.
  pose proof (sorted_reverse_Permutation d) as Hperm.
  split_and!.
  - apply (sublist_NoDup _ (sorted_reverse d).*1).
    + rewrite Hperm. apply contar_NoDup.
    + by apply fmap_sublist.
  - intros k v Hkv. eapply elem_of_sublist in Hkv; [|exact Hsub].
    rewrite Hperm in Hkv. unfold d in Hkv. rewrite contar_grupos_esperados in Hkv.
    apply list_elem_of_fmap in Hkv as (k' & [= -> ->] & Hk).
    apply (proj1 (primeras_apariciones_elem_of _ _)) in Hk. fold claves in Hk |- *.
    split_and!; [done | |].
    + unfold ocurrencias.
      assert (k' ∈ filter (fun d0 => d0 = k') claves) as Hin
        by (by apply list_elem_of_filter).
      destruct (filter (fun d0 => d0 = k') claves); [by apply elem_of_nil in Hin|].
      simpl. lia.
    + apply list_elem_of_fmap in Hk as (t & -> & Ht). by exists t.
  - apply sublist_length in Hsub.
    pose proof (Permutation_length Hperm) as Hlen.
    pose proof (contar_length (registro_tratamientos self) m) as Hc. fold d in Hc. lia.
  - intros Hn. rewrite slice_hasta_no_negativo by done. rewrite length_take. lia.
  - intros Hn. rewrite slice_hasta_no_negativo by lia. rewrite take_ge.
    + rewrite (total_Permutation _ _ Hperm). apply total_contar.
    + pose proof (Permutation_length Hperm) as Hlen.
      pose proof (contar_length (registro_tratamientos self) m) as Hc.
      fold d in Hc. lia.
Qed.

(** X17. A negative [top_n] is not refused: the slice then drops that many
    entries from the end of the full ranking instead of keeping a number
    of them from the front. *)
Theorem mas_comunes_top_n_negativo
    (self : SistemaHistorialTratamientos.t) (top_n : Z) (m : Memoria)
    (Hneg : top_n < 0) :
  let todos :=
    obtener_tratamientos_mas_comunes self
      (Z.of_nat (length (registro_tratamientos self))) m in
  obtener_tratamientos_mas_comunes self top_n m
  = take (length todos - Z.to_nat (- top_n)) todos.
Proof.
  intros todos. unfold todos. rewrite !mas_comunes_ordenados.
  rewrite (slice_hasta_no_negativo (Z.of_nat _)) by lia.
  rewrite (take_ge (sorted_reverse _)).
  2:{ rewrite sorted_reverse_Permutation.
      pose proof (contar_length (registro_tratamientos self) m). lia. }
  unfold slice_hasta. rewrite (proj2 (Z.ltb_lt top_n 0)) by done.
  f_equal. lia.
Qed.

End Tally_props.

Section Tally_ejemplos.
Import SistemaHistorialTratamientos.

Lemma mas_comunes_top_n_negativo_witness :
  obtener_tratamientos_mas_comunes ejemplo_historial.1 (-1) ejemplo_historial.2
  = [("cleaning", 2)].
Proof.
  rewrite (mas_comunes_top_n_negativo ejemplo_historial.1 (-1) ejemplo_historial.2).
  - by vm_compute.
  - lia.
Defined.

End Tally_ejemplos.
